(** * esm_analysis.carbon: a shallow embedding and its verified properties

    The module [src/esm_analysis/carbon.py] computes carbonate-system
    diagnostics of ocean model output: CO2 solubility, the Schmidt number,
    potential pCO2, and a first-order decomposition of surface pCO2 into
    driver terms.

    Numbers are IEEE-754 binary64 values, as Python and numpy have them;
    they are embedded as Rocq's primitive floats, whose operations are
    specified by [SpecFloat].  Datasets are finite maps from variable
    names to labelled arrays ([gmap string DataArray]).  Exceptions and
    warnings are threaded through a small logging error monad. *)

From Stdlib Require Import ZArith List Bool Floats Lia Permutation.
From stdpp Require Import base option list gmap strings sorting.
Set Warnings "-inexact-float".
Import ListNotations.

(* ===================================================================== *)
(** * Part I: the model *)
(* ===================================================================== *)

(** ** numpy scalars and one-dimensional reductions *)

Definition float_of_nat (n : nat) : float :=
  PrimFloat.of_uint63 (Uint63.of_Z (Z.of_nat n)).

(** [np.sum] over a one-dimensional float64 series: the accumulator starts
    at zero and the samples are added in index order.  This is the order
    numpy uses for a series of fewer than eight samples; longer series are
    added in blocks. *)
Definition np_sum (a : list float) : float :=
  fold_left PrimFloat.add a 0%float.

(** [np.mean]: the sum divided by the number of samples.  No sample is
    skipped, so a NaN sample makes the mean NaN, and the mean of an empty
    series is [0/0]. *)
Definition np_mean (a : list float) : float :=
  (np_sum a / float_of_nat (length a))%float.

(** [x ** n] for a literal exponent [n], as repeated multiplication.  The
    square is the product numpy computes.  For the cube numpy calls the C
    library's [pow], which rounds once, while the product [(x * x) * x]
    taken here rounds twice and can differ from it in the last bit; the two
    agree at 0, at 1 and at NaN, and the properties below evaluate no
    other cube: they compare runs on equal means. *)
Fixpoint float_pow (x : float) (n : nat) : float :=
  match n with
  | O => 1%float
  | S n' => match n' with
            | O => x
            | S _ => (float_pow x n' * x)%float
            end
  end.

(** The mean numpy takes over the samples of one grid cell along an axis,
    missing values (NaN) skipped.  The order in which numpy adds the
    samples depends on the length and the memory layout of the array, so
    the reduction is left open: every property below holds for any
    reduction. *)
Class Reduction : Type := { nan_mean : list float → float }.

(** ** Exceptions, warnings and the execution log *)

Inductive exn : Type :=
| ValueError (msg : string)
| KeyError (msg : string)
| VariableKeyError (name : string)  (* KeyError of [ds[name]] *)
| SliceKeyError       (* KeyError of a label slice on an axis that is not ascending *)
| DimensionError (dim : string)     (* ValueError of a reduction over a missing dimension *)
| AlignmentError      (* arithmetic on unlabelled arrays of different shapes *)
| EmptyGroupError     (* ValueError of [groupby] on an empty series *)
| IndexError (msg : string).

(** The array computations a run performs, by the statement that starts
    them. *)
Inductive work : Type :=
| Sensitivities   (* buffer factors and sensitivity fields, lines 169-179 *)
| Detrending      (* rm_poly(ds_terms, order, dim='time') *)
| MeanRemoval     (* ds_terms - mean *)
| Climatology     (* groupby('time.month') mean and its removal *)
| Regression      (* regression_against_index and the scaling by sensitivities *)
| Product.        (* pco2_sensitivity.mean('time') * ds_terms_anomaly *)

Inductive event : Type :=
| Warning (msg : string)
| Work (w : work)
| Plotted.

(** A computation yields the events it produced, in program order, and
    either the exception that stopped it or its value. *)
Definition M (A : Type) : Type := (list event * (exn + A))%type.

#[global] Instance M_ret : MRet M := λ A x, ([], inr x).
#[global] Instance M_bind : MBind M := λ A B f m,
  match m with
  | (l, inl e) => (l, inl e)
  | (l, inr x) => let '(l', r) := f x in (l ++ l', r)
  end.

Definition raise {A : Type} (e : exn) : M A := ([], inl e).
Definition warn (msg : string) : M unit := ([Warning msg], inr tt).
Definition perform (w : work) : M unit := ([Work w], inr tt).
Definition plot_figure : M unit := ([Plotted], inr tt).

Definition log {A : Type} (m : M A) : list event := fst m.
Definition outcome {A : Type} (m : M A) : exn + A := snd m.

Definition is_warning (e : event) : bool :=
  match e with Warning _ => true | _ => false end.

(** A [for] loop that threads an accumulator and stops at an exception. *)
Fixpoint for_each {A B : Type} (body : B → A → M B) (l : list A) (acc : B) : M B :=
  match l with
  | [] => mret acc
  | x :: l' => acc' ← body acc x; for_each body l' acc'
  end.

(** ** xarray: labelled arrays and datasets *)

(** A time label: calendar year and month, and the instant within the
    month. *)
Record Time : Type := mkTime { year : Z; month : Z; instant : Z }.

#[global] Instance Time_eq_dec : EqDecision Time.
Proof. solve_decision. Defined.

Definition time_leb (a b : Time) : bool :=
  (year a <? year b)%Z
  || ((year a =? year b)%Z
      && ((month a <? month b)%Z
          || ((month a =? month b)%Z && (instant a <=? instant b)%Z))).

(** A time axis a label slice accepts: monotonic increasing. *)
Fixpoint ascending (l : list Time) : bool :=
  match l with
  | [] => true
  | a :: l' => match l' with
               | [] => true
               | b :: _ => time_leb a b && ascending l'
               end
  end.

(** A [DataArray] over the (flattened) spatial grid: zero-dimensional, a
    grid without time axis, or one grid slice per time label. *)
Inductive DataArray : Type :=
| Scalar (x : float)
| Static (g : list float)
| Timed (rows : list (Time * list float)).

(** An index series: one value per time label. *)
Abbreviation Index := (list (Time * float)).

Abbreviation Dataset := (gmap string DataArray).

Definition is_timed (a : DataArray) : bool :=
  match a with Timed _ => true | _ => false end.

Definition lookup_time (t : Time) (rows : list (Time * list float))
  : option (list float) :=
  (λ ir : nat * (Time * list float), snd (snd ir))
    <$> list_find (λ e : Time * list float, fst e = t) rows.

(** Two time axes with different labels are aligned by label (inner
    join). *)
Definition join_rows (f : float → float → float)
    (a b : list (Time * list float)) : list (Time * list float) :=
  omap (λ e : Time * list float,
          r' ← lookup_time (fst e) b; Some (fst e, zip_with f (snd e) r')) a.

(** Two arrays on the same time axis are paired step by step. *)
Definition pair_rows (f : float → float → float)
    (a b : list (Time * list float)) : list (Time * list float) :=
  zip_with (λ ea eb : Time * list float, (fst ea, zip_with f (snd ea) (snd eb))) a b.

Definition map_rows (f : list float → list float)
    (rows : list (Time * list float)) : list (Time * list float) :=
  (λ e : Time * list float, (fst e, f (snd e))) <$> rows.

(** Element-wise binary operation with broadcasting. *)
Definition da_binop (f : float → float → float) (a b : DataArray) : DataArray :=
  match a, b with
  | Scalar x, Scalar y => Scalar (f x y)
  | Scalar x, Static h => Static (f x <$> h)
  | Scalar x, Timed rb => Timed (map_rows (fmap (f x)) rb)
  | Static g, Scalar y => Static ((λ v, f v y) <$> g)
  | Static g, Static h => Static (zip_with f g h)
  | Static g, Timed rb => Timed (map_rows (zip_with f g) rb)
  | Timed ra, Scalar y => Timed (map_rows (fmap (λ v, f v y)) ra)
  | Timed ra, Static h => Timed (map_rows (λ r, zip_with f r h) ra)
  | Timed ra, Timed rb =>
      if bool_decide (fst <$> ra = fst <$> rb)
      then Timed (pair_rows f ra rb)
      else Timed (join_rows f ra rb)
  end.

Definition da_map (f : float → float) (a : DataArray) : DataArray :=
  match a with
  | Scalar x => Scalar (f x)
  | Static g => Static (f <$> g)
  | Timed rows => Timed (map_rows (fmap f) rows)
  end.

Definition da_sub := da_binop PrimFloat.sub.
Definition da_mul := da_binop PrimFloat.mul.
Definition da_div := da_binop PrimFloat.div.
Definition da_neg := da_map PrimFloat.opp.
Definition da_pow (a : DataArray) (n : nat) : DataArray :=
  da_map (λ x, float_pow x n) a.

(** The value of an array at time position [i] and grid cell [j]; arrays
    without a time axis have the same value at every time position. *)
Definition da_at (a : DataArray) (i j : nat) : option float :=
  match a with
  | Scalar x => Some x
  | Static g => g !! j
  | Timed rows => e ← rows !! i; snd e !! j
  end.

Definition column (rows : list (list float)) (j : nat) : list float :=
  omap (λ r : list float, r !! j) rows.

Definition in_years (y1 y2 : Z) (t : Time) : bool :=
  (y1 <=? year t)%Z && (year t <=? y2)%Z.

(** The steps of the years [y1] to [y2]: a label slice includes both end
    points. *)
Definition da_between (y1 y2 : Z) (a : DataArray) : DataArray :=
  match a with
  | Timed rows => Timed (List.filter (λ e, in_years y1 y2 (fst e)) rows)
  | _ => a
  end.

Definition da_ascending (a : DataArray) : bool :=
  match a with
  | Timed rows => ascending (fst <$> rows)
  | _ => true
  end.

(** [ds.sel(time=slice(str(y1), str(y2)))]: the label slice raises KeyError
    on a time axis that is not ascending. *)
Definition ds_sel_years (y1 y2 : Z) (ds : Dataset) : M Dataset :=
  if bool_decide (map_Forall (λ _ v, da_ascending v = true) ds)
  then mret (da_between y1 y2 <$> ds)
  else raise SliceKeyError.

Definition index_between (y1 y2 : Z) (index : Index) : Index :=
  List.filter (λ e, in_years y1 y2 (fst e)) index.

Definition index_sel_years (y1 y2 : Z) (index : Index) : M Index :=
  if ascending (fst <$> index)
  then mret (index_between y1 y2 index)
  else raise SliceKeyError.

(** Dataset arithmetic keeps the variables both operands have. *)
Definition ds_binop (f : float → float → float) (a b : Dataset) : Dataset :=
  map_zip_with (da_binop f) a b.

Definition ds_sub := ds_binop PrimFloat.sub.
Definition ds_mul := ds_binop PrimFloat.mul.

(** [Dataset * DataArray]: every variable is multiplied by the array. *)
Definition ds_mul_da (ds : Dataset) (a : DataArray) : Dataset :=
  (λ v, da_mul v a) <$> ds.

(** [ds[name]] *)
Definition getitem (ds : Dataset) (name : string) : M DataArray :=
  match ds !! name with
  | Some v => mret v
  | None => raise (VariableKeyError name)
  end.

(** [index.groupby('time.year').groups]: the distinct years, ascending. *)
Definition index_years (index : Index) : list Z :=
  merge_sort Z.le (remove_dups ((λ e : Time * float, year (fst e)) <$> index)).

(** [groupby] refuses an empty series. *)
Definition groupby_years (index : Index) : M (list Z) :=
  match index with
  | [] => raise EmptyGroupError
  | _ => mret (index_years index)
  end.

(** [index['time.year'][-1]] *)
Definition index_last_year (index : Index) : M Z :=
  match last index with
  | Some e => mret (year (fst e))
  | None => raise (IndexError "index -1 is out of bounds for axis 0 with size 0")
  end.

Section Time_means.
Context {reduction : Reduction}.

(** The mean over the leading axis of a stack of grid slices. *)
Definition time_mean (rows : list (list float)) : list float :=
  match rows with
  | [] => []
  | r0 :: _ => (λ j, nan_mean (column rows j)) <$> seq 0 (length r0)
  end.

(** The mean of an array over its time axis, when it has one. *)
Definition da_mean_values (a : DataArray) : DataArray :=
  match a with
  | Timed rows => Static (time_mean (snd <$> rows))
  | _ => a
  end.

(** [da.mean('time')]: an array without time axis is refused. *)
Definition da_mean_time (a : DataArray) : M DataArray :=
  match a with
  | Timed _ => mret (da_mean_values a)
  | _ => raise (DimensionError "time")
  end.

Definition ds_has_time (ds : Dataset) : bool :=
  bool_decide (map_Exists (λ _ v, is_timed v = true) ds).

Definition ds_mean_values (ds : Dataset) : Dataset := da_mean_values <$> ds.

(** [ds.mean('time')]: a dataset none of whose variables has a time axis
    is refused; a variable without time axis is passed through. *)
Definition ds_mean_time (ds : Dataset) : M Dataset :=
  if ds_has_time ds then mret (ds_mean_values ds)
  else raise (DimensionError "time").

(** [clim = da.groupby('time.month').mean('time')] followed by
    [da.groupby('time.month') - clim]: every time step loses the mean of
    the steps of its calendar month. *)
Definition da_remove_climatology (a : DataArray) : DataArray :=
  match a with
  | Timed rows =>
      Timed ((λ e : Time * list float,
                (fst e,
                 zip_with PrimFloat.sub (snd e)
                   (time_mean
                      (snd <$> List.filter
                                 (λ e' : Time * list float,
                                    (month (fst e') =? month (fst e))%Z) rows))))
               <$> rows)
  | _ => a
  end.

Definition ds_remove_climatology (ds : Dataset) : Dataset :=
  da_remove_climatology <$> ds.

(** The slices a [DataArray] contributes to a concatenation along time. *)
Definition da_slices (a : DataArray) : list (list float) :=
  match a with
  | Scalar x => [[x]]
  | Static g => [g]
  | Timed rows => snd <$> rows
  end.

Definition da_concat_mean (das : list DataArray) : DataArray :=
  match das with
  | Scalar _ :: _ => Scalar (nan_mean (column (das ≫= da_slices) 0))
  | _ => Static (time_mean (das ≫= da_slices))
  end.

(** [xr.concat(res, dim='time').mean('time')]: concatenation refuses an
    empty list and datasets whose variables differ. *)
Definition xr_concat_mean (res : list Dataset) : M Dataset :=
  match res with
  | [] => raise (ValueError "must supply at least one object to concatenate")
  | d0 :: rest =>
      if forallb (λ d : Dataset, bool_decide (dom d = dom d0)) rest
      then mret (map_imap (λ k _, Some (da_concat_mean (omap (λ d : Dataset, d !! k) res))) d0)
      else raise (ValueError "variables present in some datasets but not others")
  end.

End Time_means.

(** ** co2_sol and schmidt (lines 10-65) *)

Section Solubility.
(** numpy's exponential and natural logarithm. *)
Variables np_exp np_log : float → float.

Local Open Scope float_scope.

Definition co2_sol (t s : list float) : float :=
  let a0 := -162.8301 in
  let a1 := 218.2968 in
  let a2 := 90.9241 in
  let a3 := -1.47696 in
  let b0 := 0.025695 in
  let b1 := -0.025225 in
  let b2 := 0.0049867 in
  let t := (np_mean t + 273.15) * 0.01 in
  let s := np_mean s in
  let t_sq := float_pow t 2 in
  let t_inv := 1.0 / t in
  let log_t := np_log t in
  let d0 := b2 * t_sq + b1 * t + b0 in
  np_exp (a0 + a1 * t_inv + a2 * log_t + a3 * t_sq + d0 * s).

Definition schmidt (t : list float) : float :=
  let c0 := 2073.1 in
  let c1 := 125.62 in
  let c2 := 3.6276 in
  let c3 := 0.043219 in
  let t := np_mean t in
  c0 - c1 * t + c2 * (float_pow t 2) - c3 * (float_pow t 3).

(** ** temp_decomp_takahashi (lines 68-97), for [time_dim='time'] *)

Context {reduction : Reduction}.

Definition temp_decomp_takahashi (ds : Dataset) (temperature pco2 : string)
  : M (DataArray * DataArray) :=
  let fac := 0.0432 in
  tos ← getitem ds temperature;
  tos_mean ← da_mean_time tos;
  let tos_diff := da_sub tos tos_mean in
  p ← getitem ds pco2;
  p_mean ← da_mean_time p;
  let thermal := da_mul p_mean (da_map np_exp (da_mul tos_diff (Scalar fac))) in
  let non_thermal := da_mul p (da_map np_exp (da_mul tos_diff (Scalar (- fac)))) in
  mret (thermal, non_thermal).

End Solubility.

(** ** potential_pco2 (lines 100-124)

    The fields are lists of depth levels, each level a grid slice; level 0
    is what [isel(depth=0)] selects.  The two fields carry no labels, so
    the arithmetic refuses fields of different shapes. *)

Definition same_shape (t_insitu pco2_insitu : list (list float)) (width : nat) : bool :=
  (length t_insitu =? length pco2_insitu)%nat
  && forallb (λ l : list float, (length l =? width)%nat) t_insitu
  && forallb (λ l : list float, (length l =? width)%nat) pco2_insitu.

Definition potential_pco2 (t_insitu pco2_insitu : list (list float))
  : exn + list (list float) :=
  match t_insitu with
  | [] => inl (IndexError "index 0 is out of bounds for axis 0 with size 0")
  | t_sfc :: _ =>
      if same_shape t_insitu pco2_insitu (length t_sfc) then
        inr (zip_with
               (λ p_k t_k,
                  zip_with PrimFloat.mul p_k
                    ((λ d, (1 + 0.0423 * d)%float) <$> zip_with PrimFloat.sub t_sfc t_k))
               pco2_insitu t_insitu)
      else inl AlignmentError
  end.

(** ** spco2_sensitivity (lines 127-180) *)

Definition requiredVars : list string :=
  ["spco2"; "tos"; "sos"; "talkos"; "dissicos"].

(** [i in ds.data_vars] *)
Definition has_var (ds : Dataset) (i : string) : bool :=
  bool_decide (is_Some (ds !! i)).

Definition missingVars (ds : Dataset) : list string :=
  List.filter (λ i, negb (has_var ds i)) requiredVars.

(** Python's [repr] of a list of strings, as the f-string prints it. *)
Definition py_repr (l : list string) : string :=
  "[" +:+ String.concat ", " ((λ s, "'" +:+ s +:+ "'") <$> l) +:+ "]".

Definition missing_message (l : list string) : string :=
  "Missing variables needed for calculation:
            " +:+ py_repr l.

Definition _check_variables (ds : Dataset) : M unit :=
  if negb (forallb (has_var ds) requiredVars)
  then raise (ValueError (missing_message (missingVars ds)))
  else mret tt.

Definition buffer_factor_ALK (ALK DIC : DataArray) : DataArray :=
  da_div (da_neg (da_pow ALK 2))
         (da_mul (da_sub (da_mul (Scalar 2) DIC) ALK) (da_sub ALK DIC)).

Definition buffer_factor_DIC (ALK DIC : DataArray) : DataArray :=
  da_div (da_sub (da_mul (da_mul (Scalar 3) ALK) DIC)
                 (da_mul (Scalar 2) (da_pow DIC 2)))
         (da_mul (da_sub (da_mul (Scalar 2) DIC) ALK) (da_sub ALK DIC)).

Definition spco2_sensitivity (ds : Dataset) : M Dataset :=
  _check_variables ds ;;
  DIC ← getitem ds "dissicos";
  ALK ← getitem ds "talkos";
  SALT ← getitem ds "sos";
  pCO2 ← getitem ds "spco2";
  perform Sensitivities ;;
  let sensitivity : Dataset :=
    <["dissicos" := da_mul (da_div (Scalar 1) DIC) (buffer_factor_DIC ALK DIC)]>
      (<["talkos" := da_mul (da_div (Scalar 1) ALK) (buffer_factor_ALK ALK DIC)]>
         (<["sos" := da_div (Scalar 1) SALT]>
            (<["tos" := Scalar 0.0423]> ∅))) in
  mret (ds_mul_da sensitivity pCO2).

(** ** The decomposition drivers (lines 184-328)

    Both drivers are wrapped in [check_xarray] (esm_analysis/utils.py, not
    among the sources), which checks that the positional arguments are
    xarray objects.  The arguments here are datasets and index series by
    their types, so the decorator has nothing to refuse.  The progress bar
    [tqdm] around the loop over the years does not change what the loop
    computes. *)

(** Python truthiness of [order]: [None] and [0] are falsy. *)
Definition truthy (order : option Z) : bool :=
  match order with
  | Some n => negb (n =? 0)%Z
  | None => false
  end.

Definition order_message_index : string :=
  "Please provide the order of polynomial to remove from
                       your time series if you are using detrend.".

Definition order_message : string :=
  "Please provide the order of polynomial you would like
                       to remove from your time series.".

(** The result of [linear_regression]; only its slope is read. *)
Record Regression_result : Type := { slope : DataArray }.

(** Modelled from the spec: nanmean of esm_analysis/stats.py, which is not
    among the sources.  The spec lists it with the statistics helpers as
    the mean and describes the anomaly it produces here as the dataset
    minus its plain time mean: it is the mean over the time axis. *)
Definition nanmean `{!Reduction} (ds : Dataset) : Dataset := ds_mean_values ds.

Section Decomposition.
Context {reduction : Reduction}.
(** The statistics helpers of esm_analysis/stats.py that the drivers call
    as pure functions: polynomial detrending along time and the linear
    regression of a field onto an index. *)
Variable rm_poly : Dataset → option Z → Dataset.
Variable linear_regression : Index → DataArray → Regression_result.

(** The loop over [ds.data_vars] that skips ['spco2']. *)
Definition regression_against_index (ds : Dataset) (index : Index) : Dataset :=
  map_imap (λ term da,
              if bool_decide (term ≠ "spco2")
              then Some (slope (linear_regression index da))
              else None) ds.

(** The body of the loop over the start years (lines 264-270). *)
Definition window_step (ds_terms_anomaly pco2_sensitivity : Dataset)
    (index : Index) (sliding_window y_end : Z)
    (res : list Dataset) (y1 : Z) : M (list Dataset) :=
  let y2 := (y1 + sliding_window)%Z in
  if (y2 <=? y_end)%Z then
    ds ← ds_sel_years y1 y2 ds_terms_anomaly;
    ind ← index_sel_years y1 y2 index;
    let terms := regression_against_index ds ind in
    sens ← ds_sel_years y1 y2 pco2_sensitivity;
    mret (res ++ [ds_mul terms (nanmean sens)])
  else mret res.

Definition spco2_decomposition_index (ds_terms : Dataset) (index : Index)
    (detrend : bool) (order : option Z) (deseasonalize plot : bool)
    (sliding_window : option Z) : M (option Dataset) :=
  pco2_sensitivity ← spco2_sensitivity ds_terms;
  ds_terms_anomaly ←
    (if detrend && negb (truthy order) then raise (KeyError order_message_index)
     else if detrend then
       perform Detrending ;; mret (rm_poly ds_terms order)
     else
       warn "Your data are not being detrended." ;;
       perform MeanRemoval ;;
       mret (ds_sub ds_terms (nanmean ds_terms)));
  ds_terms_anomaly ←
    (if deseasonalize then
       perform Climatology ;; mret (ds_remove_climatology ds_terms_anomaly)
     else
       warn "Your data are not being deseasonalized." ;; mret ds_terms_anomaly);
  terms_in_pCO2_units ←
    match sliding_window with
    | None =>
        perform Regression ;;
        let terms := regression_against_index ds_terms_anomaly index in
        mret (ds_mul terms (nanmean pco2_sensitivity))
    | Some n =>
        years ← groupby_years index;
        y_end ← index_last_year index;
        perform Regression ;;
        res ← for_each (window_step ds_terms_anomaly pco2_sensitivity index n y_end)
                years [];
        xr_concat_mean res
    end;
  if plot then plot_figure ;; mret None
  else mret (Some terms_in_pCO2_units).

Definition spco2_decomposition (ds_terms : Dataset) (detrend : bool)
    (order : option Z) (deseasonalize : bool) : M Dataset :=
  pco2_sensitivity ← spco2_sensitivity ds_terms;
  ds_terms_anomaly ←
    (if detrend && negb (truthy order) then raise (KeyError order_message)
     else if detrend then
       perform Detrending ;; mret (rm_poly ds_terms order)
     else
       warn "Your data are not being detrended." ;;
       perform MeanRemoval ;;
       time_mean_of_terms ← ds_mean_time ds_terms;
       mret (ds_sub ds_terms time_mean_of_terms));
  ds_terms_anomaly ←
    (if deseasonalize then
       perform Climatology ;; mret (ds_remove_climatology ds_terms_anomaly)
     else
       warn "Your data are not being deseasonalized." ;; mret ds_terms_anomaly);
  perform Product ;;
  mean_sensitivity ← ds_mean_time pco2_sensitivity;
  mret (ds_mul mean_sensitivity ds_terms_anomaly).

End Decomposition.

(** ** Notions used to state the properties *)

(** A run fails before any array computation when it ends in an exception
    and its log holds no [Work] event. *)
Definition fails_before_any_work {A : Type} (m : M A) : Prop :=
  (∃ e, outcome m = inl e) ∧ ∀ w, Work w ∉ log m.

(** An array lies on the time axis [T] when it has no time axis of its
    own or its labels are exactly [T]. *)
Definition on_axis (T : list Time) (a : DataArray) : Prop :=
  match a with
  | Timed rows => fst <$> rows = T
  | _ => True
  end.

(** The value of variable [name] at time position [i] and cell [j]. *)
Definition ds_at (ds : Dataset) (name : string) (i j : nat) : option float :=
  v ← ds !! name; da_at v i j.

(** The four sensitivity fields, before the scaling by pCO2. *)
Definition sensitivity_fields (ALK DIC SALT : DataArray) : Dataset :=
  <["dissicos" := da_mul (da_div (Scalar 1) DIC) (buffer_factor_DIC ALK DIC)]>
    (<["talkos" := da_mul (da_div (Scalar 1) ALK) (buffer_factor_ALK ALK DIC)]>
       (<["sos" := da_div (Scalar 1) SALT]>
          (<["tos" := Scalar 0.0423]> ∅))).

(** The sensitivities at one grid cell, as the formulas read: the
    temperature term is the constant 0.0423, the salinity term [1/S], the
    alkalinity and DIC terms the buffer factors over ALK and DIC (computed
    as [(1/ALK) * factor] and [(1/DIC) * factor]); each is multiplied by
    the pCO2 of the cell. *)
Section Cell_formulas.
Local Open Scope float_scope.

Definition cell_buffer_factor_ALK (alk dic : float) : float :=
  - (alk * alk) / ((2 * dic - alk) * (alk - dic)).

Definition cell_buffer_factor_DIC (alk dic : float) : float :=
  (3 * alk * dic - 2 * (dic * dic)) / ((2 * dic - alk) * (alk - dic)).

Definition cell_sensitivity_tos (pco2 : float) : float := 0.0423 * pco2.
Definition cell_sensitivity_sos (salt pco2 : float) : float := 1 / salt * pco2.
Definition cell_sensitivity_talkos (alk dic pco2 : float) : float :=
  1 / alk * cell_buffer_factor_ALK alk dic * pco2.
Definition cell_sensitivity_dissicos (alk dic pco2 : float) : float :=
  1 / dic * cell_buffer_factor_DIC alk dic * pco2.

(** The alkalinity and DIC sensitivities with the quotient taken in one
    division, [factor / ALK] and [factor / DIC]. *)
Definition quotient_sensitivity_talkos (alk dic pco2 : float) : float :=
  cell_buffer_factor_ALK alk dic / alk * pco2.
Definition quotient_sensitivity_dissicos (alk dic pco2 : float) : float :=
  cell_buffer_factor_DIC alk dic / dic * pco2.

End Cell_formulas.

Definition detrend_warning : event := Warning "Your data are not being detrended.".
Definition deseasonalize_warning : event :=
  Warning "Your data are not being deseasonalized.".

(** ** Sample inputs

    Two yearly time steps on a two-cell grid, used to run the functions. *)

Definition sample_field (a b c d : float) : DataArray :=
  Timed [(mkTime 2000 1 0, [a; b]); (mkTime 2001 1 0, [c; d])].

Definition sample_ds : Dataset :=
  <["spco2" := sample_field 360 370 380 390]>
    (<["tos" := sample_field 10 11 12 13]>
       (<["sos" := sample_field 35 34 33 32]>
          (<["talkos" := sample_field 2300 2310 2320 2330]>
             (<["dissicos" := sample_field 2000 2010 2020 2030]> ∅)))).

(** The sample dataset with a sixth variable. *)
Definition sample_ds_extra : Dataset :=
  <["chlos" := sample_field 1 2 3 4]> sample_ds.

Definition sample_index : Index :=
  [(mkTime 2000 1 0, 1%float); (mkTime 2001 1 0, 2%float)].

(** Stand-ins for the statistics helpers and for numpy's reduction when a
    run needs them: the reduction adds the valid samples in index order. *)
Definition sample_rm_poly : Dataset → option Z → Dataset := λ ds _, ds.
Definition sample_regression : Index → DataArray → Regression_result :=
  λ _ da, {| slope := da |}.
Definition in_order_nan_mean (xs : list float) : float :=
  (np_sum ((λ x, if PrimFloat.is_nan x then 0 else x) <$> xs)
   / float_of_nat (length (List.filter (λ x, negb (PrimFloat.is_nan x)) xs)))%float.
Definition sample_reduction : Reduction := {| nan_mean := in_order_nan_mean |}.

(** The sensitivities of the sample dataset. *)
Definition sample_sens : Dataset :=
  match outcome (spco2_sensitivity sample_ds) with
  | inr sens => sens
  | inl _ => ∅
  end.

(* ===================================================================== *)
(** * Part II: properties *)
(* ===================================================================== *)

(** ** binary64 arithmetic facts *)

Section Binary64.
Local Open Scope float_scope.

Lemma SFeqb_finite_refl s m e :
  SFeqb (S754_finite s m e) (S754_finite s m e) = true.
Proof.
  unfold SFeqb, SFcompare.
  destruct s; rewrite Z.compare_refl, Pos.compare_cont_refl; reflexivity.
Qed.

Lemma is_finite_spec x :
  is_finite x = true <->
  (exists s, Prim2SF x = S754_zero s) \/ (exists s m e, Prim2SF x = S754_finite s m e).
Proof.
  unfold is_finite, is_nan, is_infinity.
  rewrite !FloatAxioms.eqb_spec, abs_spec.
  change (Prim2SF infinity) with (S754_infinity false).
  destruct (Prim2SF x) as [s|s| |s m e].
  - split; [intros _; left; eauto | destruct s; reflexivity].
  - split; [destruct s; discriminate | intros [[? ?]|(? & ? & ? & ?)]; discriminate].
  - split; [discriminate | intros [[? ?]|(? & ? & ? & ?)]; discriminate].
  - cbn [SFabs]. rewrite SFeqb_finite_refl.
    split; [intros _; right; eauto | reflexivity].
Qed.

Lemma float_sub_self x : is_finite x = true -> x - x = 0.
Proof.
  intros Hf. apply Prim2SF_inj. rewrite sub_spec.
  change (Prim2SF 0) with (S754_zero false).
  apply is_finite_spec in Hf as [[s ->]|(s & m & e & ->)].
  - destruct s; reflexivity.
  - unfold SF64sub, SFsub. rewrite Z.min_id.
    unfold shl_align. rewrite Z.sub_diag. reflexivity.
Qed.

Lemma float_sub_self_nan x : is_finite x = false -> x - x = nan.
Proof.
  intros Hf. apply Prim2SF_inj. rewrite sub_spec.
  change (Prim2SF nan) with S754_nan.
  destruct (Prim2SF x) as [s|s| |s m e] eqn:E.
  - assert (is_finite x = true) by (apply is_finite_spec; left; eauto). congruence.
  - destruct s; reflexivity.
  - reflexivity.
  - assert (is_finite x = true) by (apply is_finite_spec; right; eauto). congruence.
Qed.

Lemma iter_pos_shr_1_exact (m : positive) :
  SpecFloat.iter_pos shr_1 52 (Build_shr_record (Zpos (m * 4503599627370496)) false false)
  = Build_shr_record (Zpos m) false false.
Proof.
  rewrite !Pos.mul_xO_r, Pos.mul_1_r. reflexivity.
Qed.

Lemma digits2_pos_shift (m : positive) :
  Zpos (digits2_pos (m * 4503599627370496)) = (Zpos (digits2_pos m) + 52)%Z.
Proof.
  rewrite !Pos.mul_xO_r, Pos.mul_1_r.
  cbn [digits2_pos]. lia.
Qed.

Lemma shr_fexp_canonical (m : positive) (e : Z) :
  fexp prec emax (Z.pos (digits2_pos m) + e) = e ->
  shr_fexp prec emax (Z.pos m) e loc_Exact = (Build_shr_record (Z.pos m) false false, e).
Proof.
  intros Hc. unfold shr_fexp. cbn [Zdigits2]. rewrite Hc, Z.sub_diag. reflexivity.
Qed.

Lemma shr_fexp_times_one (m : positive) (e : Z) :
  fexp prec emax (Z.pos (digits2_pos m) + e) = e ->
  shr_fexp prec emax (Z.pos (m * 4503599627370496)) (e + -52) loc_Exact
  = (Build_shr_record (Z.pos m) false false, e).
Proof.
  intros Hc. unfold shr_fexp. cbn [Zdigits2]. rewrite digits2_pos_shift.
  replace (Z.pos (digits2_pos m) + 52 + (e + -52))%Z with (Z.pos (digits2_pos m) + e)%Z by lia.
  rewrite Hc.
  replace (e - (e + -52))%Z with 52%Z by lia.
  cbn [shr shr_record_of_loc]. rewrite iter_pos_shr_1_exact.
  f_equal. lia.
Qed.

Lemma float_mul_one_r x : x * 1 = x.
Proof.
  apply Prim2SF_inj. rewrite mul_spec.
  change (Prim2SF 1) with (S754_finite false 4503599627370496 (-52)).
  pose proof (Prim2SF_valid x) as Hv.
  destruct (Prim2SF x) as [s|s| |s m e];
    [destruct s; reflexivity | destruct s; reflexivity | reflexivity | ].
  cbn [valid_binary] in Hv. unfold bounded, canonical_mantissa in Hv.
  apply andb_prop in Hv as [Hc Hb].
  apply Z.eqb_eq in Hc.
  unfold SF64mul, SFmul, binary_round_aux.
  rewrite (shr_fexp_times_one m e Hc).
  cbn [shr_m loc_of_shr_record round_nearest_even].
  rewrite (shr_fexp_canonical m e Hc).
  cbn [shr_m]. rewrite xorb_false_r, Hb. reflexivity.
Qed.

Lemma float_mul_nan_r x : x * nan = nan.
Proof.
  apply Prim2SF_inj. rewrite mul_spec.
  change (Prim2SF nan) with S754_nan.
  destruct (Prim2SF x) as [s|s| |s m e]; reflexivity.
Qed.

Lemma float_correction_finite : 1 + 0.0423 * 0 = 1.
Proof. reflexivity. Qed.

Lemma float_correction_nan : 1 + 0.0423 * nan = nan.
Proof. reflexivity. Qed.

End Binary64.

Section Binary64_sums.
Local Open Scope float_scope.

Lemma float_neq_by_eqb (x y : float) : PrimFloat.eqb x y = false → is_nan x = false → x ≠ y.
Proof.
  intros Hxy Hx ->. unfold is_nan in Hx. rewrite Hxy in Hx. discriminate.
Qed.

Lemma float_add_nan_r x : x + nan = nan.
Proof.
  apply Prim2SF_inj. rewrite add_spec.
  change (Prim2SF nan) with S754_nan.
  destruct (Prim2SF x) as [s|s| |s m e]; reflexivity.
Qed.

Lemma float_add_nan_l x : nan + x = nan.
Proof.
  apply Prim2SF_inj. rewrite add_spec.
  change (Prim2SF nan) with S754_nan. reflexivity.
Qed.

Lemma float_div_nan_l x : nan / x = nan.
Proof.
  apply Prim2SF_inj. rewrite div_spec.
  change (Prim2SF nan) with S754_nan. reflexivity.
Qed.

Lemma float_add_comm x y : x + y = y + x.
Proof.
  apply Prim2SF_inj. rewrite !add_spec. unfold SF64add, SFadd.
  destruct (Prim2SF x) as [sx|sx| |sx mx ex], (Prim2SF y) as [sy|sy| |sy my ey];
    try reflexivity; try (destruct sx, sy; reflexivity).
  rewrite (Z.min_comm ey ex). f_equal. apply Z.add_comm.
Qed.

(** Adding to the zero accumulator returns the sample, except that a
    negative zero becomes positive. *)
Lemma float_zero_add x : 0 + x = x ∨ (x = (-0) ∧ 0 + x = 0).
Proof.
  destruct (Prim2SF x) as [s|s| |s m e] eqn:E.
  - destruct s.
    + right. assert (x = -0) as ->.
      { apply Prim2SF_inj. rewrite E. reflexivity. }
      split; reflexivity.
    + left. apply Prim2SF_inj. rewrite add_spec, E. reflexivity.
  - left. apply Prim2SF_inj. rewrite add_spec, E. reflexivity.
  - left. apply Prim2SF_inj. rewrite add_spec, E. reflexivity.
  - left. apply Prim2SF_inj. rewrite add_spec, E. reflexivity.
Qed.

Lemma float_add_neg_zero_r x : x + (-0) = x.
Proof.
  apply Prim2SF_inj. rewrite add_spec.
  change (Prim2SF (-0)) with (S754_zero true).
  destruct (Prim2SF x) as [s|s| |s m e]; try reflexivity.
  destruct s; reflexivity.
Qed.

Lemma np_sum_pair_comm a b : np_sum [a; b] = np_sum [b; a].
Proof.
  unfold np_sum. cbn [fold_left].
  destruct (float_zero_add a) as [Ha|[-> Ha]], (float_zero_add b) as [Hb|[-> Hb]];
    rewrite ?Ha, ?Hb.
  - apply float_add_comm.
  - rewrite float_add_neg_zero_r. symmetry. exact Ha.
  - rewrite float_add_neg_zero_r. reflexivity.
  - reflexivity.
Qed.

Lemma fold_add_nan (l : list float) : fold_left PrimFloat.add l nan = nan.
Proof.
  induction l as [|x l IH]; [reflexivity|].
  cbn [fold_left]. rewrite float_add_nan_l. exact IH.
Qed.

Lemma np_sum_nan (l : list float) : nan ∈ l → np_sum l = nan.
Proof.
  unfold np_sum. generalize 0. induction l as [|x l IH]; intros acc Hin.
  - inversion Hin.
  - cbn [fold_left]. apply elem_of_cons in Hin as [<-|Hin].
    + rewrite float_add_nan_r. apply fold_add_nan.
    + apply IH, Hin.
Qed.

Lemma np_mean_nan (l : list float) : nan ∈ l → np_mean l = nan.
Proof.
  intros Hin. unfold np_mean. rewrite (np_sum_nan l Hin). apply float_div_nan_l.
Qed.

End Binary64_sums.

(** ** co2_sol and schmidt *)

Section Solubility_facts.
Local Open Scope float_scope.

(** C8, as amended: [co2_sol] and [schmidt] read their series only through
    [np.mean]; two series (for instance a series and a permutation of it)
    whose computed means agree give the same solubility and the same
    Schmidt number. *)
Theorem co2_sol_schmidt_depend_on_means
    (np_exp np_log : float → float) (t s t' s' : list float) :
  np_mean t = np_mean t' →
  np_mean s = np_mean s' →
  co2_sol np_exp np_log t s = co2_sol np_exp np_log t' s'
  ∧ schmidt t = schmidt t'.
Proof.
  intros Ht Hs. unfold co2_sol, schmidt. rewrite Ht, Hs. split; reflexivity.
Qed.

Lemma co2_sol_schmidt_depend_on_means_witness :
  co2_sol (λ x, x) (λ x, x) [1; 2] [35; 34] = co2_sol (λ x, x) (λ x, x) [2; 1] [34; 35]
  ∧ schmidt [1; 2] = schmidt [2; 1].
Proof.
  apply (co2_sol_schmidt_depend_on_means (λ x, x) (λ x, x) [1; 2] [35; 34] [2; 1] [34; 35]);
    reflexivity.
Defined.

(** C8, as stated, fails: rounding makes the float sum depend on the order
    of the samples.  [1e30 + 3] rounds to [1e30], so the series
    [1e30, 3, -1e30] has mean 0 while its permutation [1e30, -1e30, 3] has
    mean 1, and the Schmidt numbers differ. *)
Lemma schmidt_not_permutation_invariant :
  ¬ (∀ (np_exp np_log : float → float) (t s t' s' : list float),
       t ≡ₚ t' → s ≡ₚ s' →
       co2_sol np_exp np_log t s = co2_sol np_exp np_log t' s'
       ∧ schmidt t = schmidt t').
Proof.
  intros H.
  destruct (H (λ x, x) (λ x, x) [1e30; 3; -1e30] [] [1e30; -1e30; 3] []) as [_ Hs].
  - apply perm_skip, perm_swap.
  - reflexivity.
  - revert Hs. apply float_neq_by_eqb; reflexivity.
Qed.

(** X1: a series of two samples may be swapped: binary64 addition is
    commutative, so the mean, the solubility and the Schmidt number are
    unchanged. *)
Theorem co2_sol_schmidt_swap_pair
    (np_exp np_log : float → float) (t1 t2 s1 s2 : float) :
  co2_sol np_exp np_log [t1; t2] [s1; s2] = co2_sol np_exp np_log [t2; t1] [s2; s1]
  ∧ schmidt [t1; t2] = schmidt [t2; t1].
Proof.
  apply co2_sol_schmidt_depend_on_means; unfold np_mean;
    rewrite np_sum_pair_comm; reflexivity.
Qed.

(** X2: [np.mean] skips nothing: one NaN sample makes the Schmidt number NaN. *)
Theorem schmidt_nan_sample (t : list float) : nan ∈ t → schmidt t = nan.
Proof.
  intros Hin. unfold schmidt. rewrite (np_mean_nan t Hin). reflexivity.
Qed.

Lemma schmidt_nan_sample_witness : schmidt [10; nan; 12] = nan.
Proof.
  apply (schmidt_nan_sample [10; nan; 12]). constructor. constructor.
Defined.

End Solubility_facts.


(** ** potential_pco2 *)

Section Potential_pco2_facts.
Local Open Scope float_scope.

Lemma float_sub_nan_l x : nan - x = nan.
Proof.
  apply Prim2SF_inj. rewrite sub_spec.
  change (Prim2SF nan) with S754_nan. reflexivity.
Qed.

(** The correction at a cell whose temperature equals the surface one. *)
Lemma potential_cell_same (q x : float) :
  q * (1 + 0.0423 * (x - x)) = if is_finite x then q else nan.
Proof.
  destruct (is_finite x) eqn:Hx.
  - rewrite (float_sub_self x Hx), float_correction_finite. apply float_mul_one_r.
  - rewrite (float_sub_self_nan x Hx), float_correction_nan. apply float_mul_nan_r.
Qed.

(** Every cell of every level, when the three values it reads exist. *)
Lemma potential_pco2_cell (t0 : list float) (ts p out : list (list float))
    (k j : nat) (tk pk : list float) (x0 x q : float) :
  potential_pco2 (t0 :: ts) p = inr out →
  (t0 :: ts) !! k = Some tk → p !! k = Some pk →
  t0 !! j = Some x0 → tk !! j = Some x → pk !! j = Some q →
  ∃ ok, out !! k = Some ok ∧ ok !! j = Some (q * (1 + 0.0423 * (x0 - x))).
Proof.
  intros Hrun Htk Hpk Hx0 Hx Hq. cbn [potential_pco2] in Hrun.
  destruct (same_shape _ _ _); [|discriminate Hrun].
  injection Hrun as <-.
  eexists. split.
  - rewrite lookup_zip_with, Hpk. cbn [mbind option_bind]. rewrite Htk. reflexivity.
  - rewrite lookup_zip_with, Hq. cbn [mbind option_bind].
    rewrite list_lookup_fmap, lookup_zip_with, Hx0. cbn [mbind option_bind].
    rewrite Hx. reflexivity.
Qed.

(** C7, as amended: for a temperature and a pCO2 field of the same shape
    with at least one depth level, [potential_pco2] returns, and at depth
    index 0 the result equals the original pCO2 in every cell whose
    surface temperature is finite; where the surface temperature is NaN
    or infinite the result is NaN. *)
Theorem potential_pco2_surface_level
    (t0 : list float) (ts : list (list float))
    (p0 : list float) (ps : list (list float)) :
  same_shape (t0 :: ts) (p0 :: ps) (length t0) = true →
  ∃ out0 outs,
    potential_pco2 (t0 :: ts) (p0 :: ps) = inr (out0 :: outs)
    ∧ ∀ (j : nat) (x q : float),
        t0 !! j = Some x → p0 !! j = Some q →
        out0 !! j = Some (if is_finite x then q else nan).
Proof.
  intros Hshape.
  assert (∃ out, potential_pco2 (t0 :: ts) (p0 :: ps) = inr out) as [out Hrun].
  { cbn [potential_pco2]. rewrite Hshape. eexists. reflexivity. }
  assert (∃ out0 outs, out = out0 :: outs) as (out0 & outs & ->).
  { cbn [potential_pco2] in Hrun. rewrite Hshape in Hrun. injection Hrun as <-.
    eexists _, _. reflexivity. }
  exists out0, outs. split; [exact Hrun|].
  intros j x q Hx Hq.
  destruct (potential_pco2_cell t0 ts (p0 :: ps) _ 0 j t0 p0 x x q Hrun
              eq_refl eq_refl Hx Hx Hq) as (ok & Hok & Hcell).
  cbn in Hok. injection Hok as <-.
  rewrite Hcell, potential_cell_same. reflexivity.
Qed.

Lemma potential_pco2_surface_level_witness :
  ∃ out0 outs,
    potential_pco2 [[4; infinity]; [3; 2]] [[400; 410]; [500; 510]] = inr (out0 :: outs)
    ∧ ∀ (j : nat) (x q : float),
        [4; infinity] !! j = Some x → [400; 410] !! j = Some q →
        out0 !! j = Some (if is_finite x then q else nan).
Proof.
  apply (potential_pco2_surface_level [4; infinity] [[3; 2]] [400; 410] [[500; 510]]).
  reflexivity.
Defined.

(** C7, as stated, fails: an infinite surface temperature gives
    [inf - inf = NaN], and the result at depth 0 is NaN, not the pCO2. *)
Lemma potential_pco2_surface_not_unchanged :
  ¬ (∀ (t_insitu pco2_insitu out : list (list float)),
       potential_pco2 t_insitu pco2_insitu = inr out →
       out !! 0%nat = pco2_insitu !! 0%nat).
Proof.
  intros H.
  specialize (H [[infinity]] [[400]] [[nan]] eq_refl).
  apply (f_equal (λ o : option (list float),
                    match o with Some [x] => is_nan x | _ => false end)) in H.
  vm_compute in H. discriminate H.
Qed.

(** X3: a finite temperature that does not change with depth leaves the pCO2
    of that cell unchanged at every depth. *)
Theorem potential_pco2_isothermal
    (t0 : list float) (ts p out : list (list float))
    (k j : nat) (tk pk : list float) (x q : float) :
  potential_pco2 (t0 :: ts) p = inr out →
  (t0 :: ts) !! k = Some tk → p !! k = Some pk →
  t0 !! j = Some x → tk !! j = Some x → pk !! j = Some q →
  is_finite x = true →
  ∃ ok, out !! k = Some ok ∧ ok !! j = Some q.
Proof.
  intros Hrun Htk Hpk Hx0 Hx Hq Hfin.
  destruct (potential_pco2_cell t0 ts p out k j tk pk x x q Hrun Htk Hpk Hx0 Hx Hq)
    as (ok & Hok & Hcell).
  exists ok. split; [exact Hok|].
  rewrite Hcell, potential_cell_same, Hfin. reflexivity.
Qed.

Lemma potential_pco2_isothermal_witness :
  ∃ ok, [[400; 410]; [500; 510]] !! 1%nat = Some ok ∧ ok !! 0%nat = Some 500.
Proof.
  apply (potential_pco2_isothermal [4; 5] [[4; 5]] [[400; 410]; [500; 510]]
           [[400; 410]; [500; 510]] 1 0 [4; 5] [500; 510] 4 500);
    reflexivity.
Defined.

(** X4: a NaN surface temperature makes the whole column NaN, at every depth
    and whatever the pCO2 and the in-situ temperature are. *)
Theorem potential_pco2_nan_surface
    (t0 : list float) (ts p out : list (list float))
    (k j : nat) (tk pk : list float) (x q : float) :
  potential_pco2 (t0 :: ts) p = inr out →
  (t0 :: ts) !! k = Some tk → p !! k = Some pk →
  t0 !! j = Some nan → tk !! j = Some x → pk !! j = Some q →
  ∃ ok, out !! k = Some ok ∧ ok !! j = Some nan.
Proof.
  intros Hrun Htk Hpk Hx0 Hx Hq.
  destruct (potential_pco2_cell t0 ts p out k j tk pk nan x q Hrun Htk Hpk Hx0 Hx Hq)
    as (ok & Hok & Hcell).
  exists ok. split; [exact Hok|].
  rewrite Hcell, float_sub_nan_l, float_correction_nan, float_mul_nan_r. reflexivity.
Qed.

Lemma potential_pco2_nan_surface_witness :
  ∃ ok, [[nan; 410]; [nan; 510 * (1 + 0.0423 * (5 - 2))]] !! 1%nat = Some ok
        ∧ ok !! 0%nat = Some nan.
Proof.
  apply (potential_pco2_nan_surface [nan; 5] [[4; 2]] [[400; 410]; [500; 510]]
           [[nan; 410]; [nan; 510 * (1 + 0.0423 * (5 - 2))]] 1 0 [4; 2] [500; 510] 4 500);
    reflexivity.
Defined.

End Potential_pco2_facts.


(** ** Arrays on a shared time axis *)

Lemma map_rows_labels (g : list float → list float) (rows : list (Time * list float)) :
  fst <$> map_rows g rows = fst <$> rows.
Proof. unfold map_rows. rewrite <- list_fmap_compose. reflexivity. Qed.

Lemma map_rows_lookup (g : list float → list float)
    (rows : list (Time * list float)) (i : nat) :
  map_rows g rows !! i = (λ e : Time * list float, (fst e, g (snd e))) <$> rows !! i.
Proof. unfold map_rows. apply list_lookup_fmap. Qed.

Lemma pair_rows_labels (f : float → float → float) (ra rb : list (Time * list float)) :
  fst <$> ra = fst <$> rb → fst <$> pair_rows f ra rb = fst <$> ra.
Proof.
  revert rb. induction ra as [|ea ra IH]; intros [|eb rb] Heq; try discriminate Heq.
  - reflexivity.
  - cbn in Heq |- *. f_equal. apply IH. congruence.
Qed.

Lemma pair_rows_lookup (f : float → float → float)
    (ra rb : list (Time * list float)) (i : nat) :
  pair_rows f ra rb !! i
  = (ea ← ra !! i; eb ← rb !! i; Some (fst ea, zip_with f (snd ea) (snd eb))).
Proof. unfold pair_rows. apply lookup_zip_with. Qed.

Lemma on_axis_binop (T : list Time) (f : float → float → float) (a b : DataArray) :
  on_axis T a → on_axis T b → on_axis T (da_binop f a b).
Proof.
  intros Ha Hb.
  destruct a as [x|g|ra], b as [y|h|rb]; cbn in *;
    rewrite ?map_rows_labels; try done.
  rewrite bool_decide_eq_true_2 by congruence. cbn.
  rewrite pair_rows_labels; congruence.
Qed.

Lemma on_axis_map (T : list Time) (f : float → float) (a : DataArray) :
  on_axis T a → on_axis T (da_map f a).
Proof. destruct a; cbn; rewrite ?map_rows_labels; done. Qed.

Lemma da_at_map (f : float → float) (a : DataArray) (i j : nat) :
  da_at (da_map f a) i j = f <$> da_at a i j.
Proof.
  destruct a as [x|g|rows]; cbn.
  - reflexivity.
  - apply list_lookup_fmap.
  - rewrite map_rows_lookup. destruct (rows !! i) as [e|]; cbn; [|reflexivity].
    apply list_lookup_fmap.
Qed.

(** On a shared axis, arithmetic acts cell by cell. *)
Lemma da_at_binop (T : list Time) (f : float → float → float)
    (a b : DataArray) (i j : nat) :
  on_axis T a → on_axis T b →
  da_at (da_binop f a b) i j = (x ← da_at a i j; y ← da_at b i j; Some (f x y)).
Proof.
  intros Ha Hb.
  destruct a as [x|g|ra], b as [y|h|rb]; cbn in *.
  - reflexivity.
  - rewrite list_lookup_fmap. destruct (h !! j); reflexivity.
  - rewrite map_rows_lookup. destruct (rb !! i) as [e|]; cbn; [|reflexivity].
    rewrite list_lookup_fmap. destruct (snd e !! j); reflexivity.
  - rewrite list_lookup_fmap. destruct (g !! j); reflexivity.
  - apply lookup_zip_with.
  - rewrite map_rows_lookup. destruct (rb !! i) as [e|]; cbn.
    + apply lookup_zip_with.
    + destruct (g !! j); reflexivity.
  - rewrite map_rows_lookup. destruct (ra !! i) as [e|]; cbn; [|reflexivity].
    rewrite list_lookup_fmap. destruct (snd e !! j); reflexivity.
  - rewrite map_rows_lookup. destruct (ra !! i) as [e|]; cbn; [|reflexivity].
    apply lookup_zip_with.
  - rewrite bool_decide_eq_true_2 by congruence. cbn.
    rewrite pair_rows_lookup.
    destruct (ra !! i) as [ea|]; cbn; [|reflexivity].
    destruct (rb !! i) as [eb|]; cbn.
    + apply lookup_zip_with.
    + destruct (snd ea !! j); reflexivity.
Qed.

(** ** spco2_sensitivity *)

Lemma has_var_true (ds : Dataset) (i : string) :
  has_var ds i = true ↔ is_Some (ds !! i).
Proof. unfold has_var. apply bool_decide_eq_true. Qed.

Lemma has_var_false (ds : Dataset) (i : string) :
  has_var ds i = false ↔ ds !! i = None.
Proof.
  unfold has_var. rewrite bool_decide_eq_false, <- eq_None_not_Some. reflexivity.
Qed.

Lemma all_present_true (ds : Dataset) :
  forallb (has_var ds) requiredVars = true ↔ ∀ v, v ∈ requiredVars → is_Some (ds !! v).
Proof.
  rewrite forallb_forall. split; intros H v Hv.
  - apply has_var_true, H, list_elem_of_In, Hv.
  - apply has_var_true, H, list_elem_of_In, Hv.
Qed.

Lemma forallb_false_exists {A : Type} (f : A → bool) (l : list A) :
  forallb f l = false ↔ ∃ x, x ∈ l ∧ f x = false.
Proof.
  induction l as [|a l IH]; cbn [forallb].
  - split; [discriminate | intros (x & Hx & _); inversion Hx].
  - rewrite andb_false_iff, IH. split.
    + intros [Ha | (x & Hx & Hf)].
      * exists a. split; [constructor | exact Ha].
      * exists x. split; [by constructor | exact Hf].
    + intros (x & Hx & Hf). apply elem_of_cons in Hx as [-> | Hx].
      * left. exact Hf.
      * right. exists x. split; assumption.
Qed.

Lemma all_present_false (ds : Dataset) :
  forallb (has_var ds) requiredVars = false ↔ ∃ v, v ∈ requiredVars ∧ ds !! v = None.
Proof.
  rewrite forallb_false_exists. split; intros (v & Hv & H); exists v; split;
    try assumption; by apply has_var_false.
Qed.

Lemma missingVars_spec (ds : Dataset) (v : string) :
  v ∈ missingVars ds ↔ v ∈ requiredVars ∧ ds !! v = None.
Proof.
  unfold missingVars. rewrite list_elem_of_In, filter_In, <- list_elem_of_In.
  rewrite negb_true_iff, has_var_false. reflexivity.
Qed.

Lemma spco2_sensitivity_missing (ds : Dataset) :
  forallb (has_var ds) requiredVars = false →
  spco2_sensitivity ds = ([], inl (ValueError (missing_message (missingVars ds)))).
Proof.
  intros H. unfold spco2_sensitivity, _check_variables. rewrite H. reflexivity.
Qed.

Lemma spco2_sensitivity_present (ds : Dataset) (pCO2 TOS SALT ALK DIC : DataArray) :
  ds !! "spco2" = Some pCO2 → ds !! "tos" = Some TOS → ds !! "sos" = Some SALT →
  ds !! "talkos" = Some ALK → ds !! "dissicos" = Some DIC →
  spco2_sensitivity ds
  = ([Work Sensitivities], inr (ds_mul_da (sensitivity_fields ALK DIC SALT) pCO2)).
Proof.
  intros Hp Ht Hs Ha Hd.
  unfold spco2_sensitivity, _check_variables, getitem.
  cbn [forallb requiredVars]. unfold has_var. rewrite Hp, Ht, Hs, Ha, Hd.
  reflexivity.
Qed.

Lemma spco2_sensitivity_valid (ds : Dataset) :
  forallb (has_var ds) requiredVars = true →
  ∃ sens, spco2_sensitivity ds = ([Work Sensitivities], inr sens).
Proof.
  intros H. rewrite all_present_true in H.
  destruct (H "spco2") as [p Hp]; [repeat constructor|].
  destruct (H "tos") as [t Ht]; [repeat constructor|].
  destruct (H "sos") as [s Hs]; [repeat constructor|].
  destruct (H "talkos") as [a Ha]; [repeat constructor|].
  destruct (H "dissicos") as [d Hd]; [repeat constructor|].
  eexists. apply (spco2_sensitivity_present ds p t s a d); assumption.
Qed.

Lemma append_assoc (a b c : string) : (a +:+ b) +:+ c = a +:+ (b +:+ c).
Proof.
  induction a as [|ch a IH]; [reflexivity|].
  change (String ch ((a +:+ b) +:+ c) = String ch (a +:+ (b +:+ c))).
  rewrite IH. reflexivity.
Qed.

(** C1: a dataset that lacks one of the five required variables makes
    [spco2_sensitivity] raise the ValueError whose message is the fixed
    heading followed by the printed list of the missing names, each in
    quotes, and of nothing else: the list holds exactly the required names
    the dataset lacks, so a single omission [v] gives the heading followed
    by ['v']; a dataset that has all five raises no such error. *)
Theorem spco2_sensitivity_reports_missing (ds : Dataset) :
  ((∃ v, v ∈ requiredVars ∧ ds !! v = None) →
     spco2_sensitivity ds
     = ([], inl (ValueError
                   ("Missing variables needed for calculation:
            " +:+ ("[" +:+ String.concat ", " ((λ s, "'" +:+ s +:+ "'") <$> missingVars ds)
                       +:+ "]")))))
  ∧ (∀ v, v ∈ missingVars ds ↔ v ∈ requiredVars ∧ ds !! v = None)
  ∧ NoDup (missingVars ds)
  ∧ (∀ v, v ∈ requiredVars → ds !! v = None →
       (∀ w, w ∈ requiredVars → w ≠ v → is_Some (ds !! w)) →
       missingVars ds = [v]
       ∧ spco2_sensitivity ds
         = ([], inl (ValueError
                       ("Missing variables needed for calculation:
            ['" +:+ v +:+ "']"))))
  ∧ ((∀ v, v ∈ requiredVars → is_Some (ds !! v)) →
       ∃ sens, spco2_sensitivity ds = ([Work Sensitivities], inr sens)).
Proof.
  split; [|split; [|split; [|split]]].
  - intros H. apply spco2_sensitivity_missing, all_present_false, H.
  - apply missingVars_spec.
  - unfold missingVars. apply NoDup_ListNoDup, List.NoDup_filter, NoDup_ListNoDup.
    apply (bool_decide_unpack _). vm_compute. exact I.
  - intros v Hv Hnone Hothers.
    assert (missingVars ds = [v]) as Hm.
    { unfold missingVars, requiredVars in *.
      assert (∀ w, w ∈ ["spco2"; "tos"; "sos"; "talkos"; "dissicos"] →
                   negb (has_var ds w) = bool_decide (w = v)) as Hb.
      { intros w Hw. destruct (decide (w = v)) as [->|Hne].
        - rewrite bool_decide_eq_true_2 by reflexivity.
          apply negb_true_iff, has_var_false, Hnone.
        - rewrite bool_decide_eq_false_2 by exact Hne.
          apply negb_false_iff, has_var_true, Hothers; assumption. }
      cbn [List.filter]. rewrite !Hb by (repeat constructor).
      repeat (apply elem_of_cons in Hv as [->|Hv]; [reflexivity|]).
      inversion Hv. }
    split; [exact Hm|].
    rewrite (spco2_sensitivity_missing ds) by (apply all_present_false; eauto).
    rewrite Hm. unfold missing_message, py_repr.
    cbn [fmap list_fmap String.concat]. rewrite !append_assoc. reflexivity.
  - intros H. apply spco2_sensitivity_valid, all_present_true, H.
Qed.


Ltac cell_by_cell T :=
  repeat first
    [ rewrite (da_at_binop T) by
        (repeat first [assumption | exact I | apply on_axis_binop | apply on_axis_map])
    | rewrite da_at_map ].

(** C9, as amended: for a dataset whose pCO2, salinity, alkalinity and DIC
    fields lie on one time axis, [spco2_sensitivity] returns exactly the
    four fields tos, sos, talkos and dissicos, and each cell of each field
    is the sensitivity of the cell times its pCO2, the alkalinity and DIC
    sensitivities being computed as [(1/ALK) * factor] and
    [(1/DIC) * factor]. *)
Theorem spco2_sensitivity_formulas
    (ds : Dataset) (T : list Time) (pCO2 TOS SALT ALK DIC : DataArray) :
  ds !! "spco2" = Some pCO2 → ds !! "tos" = Some TOS → ds !! "sos" = Some SALT →
  ds !! "talkos" = Some ALK → ds !! "dissicos" = Some DIC →
  on_axis T pCO2 → on_axis T SALT → on_axis T ALK → on_axis T DIC →
  ∃ sens,
    spco2_sensitivity ds = ([Work Sensitivities], inr sens)
    ∧ dom sens = {[ "tos"; "sos"; "talkos"; "dissicos" ]}
    ∧ ∀ (i j : nat) (p : float), da_at pCO2 i j = Some p →
        ds_at sens "tos" i j = Some (cell_sensitivity_tos p)
        ∧ (∀ s, da_at SALT i j = Some s →
             ds_at sens "sos" i j = Some (cell_sensitivity_sos s p))
        ∧ (∀ a d, da_at ALK i j = Some a → da_at DIC i j = Some d →
             ds_at sens "talkos" i j = Some (cell_sensitivity_talkos a d p)
             ∧ ds_at sens "dissicos" i j = Some (cell_sensitivity_dissicos a d p)).
Proof.
  intros Hp Ht Hs Ha Hd Ap As Aa Ad.
  eexists. split; [apply (spco2_sensitivity_present ds pCO2 TOS SALT ALK DIC); assumption|].
  split.
  - unfold ds_mul_da, sensitivity_fields. rewrite dom_fmap_L, !dom_insert_L, dom_empty_L.
    set_solver.
  - intros i j p Hcell.
    unfold ds_at, ds_mul_da, sensitivity_fields.
    rewrite !lookup_fmap.
    split; [|split].
    + rewrite lookup_insert_ne, lookup_insert_ne, lookup_insert_ne, lookup_insert_eq by done.
      cbn [fmap option_fmap option_map mbind option_bind].
      unfold da_mul. cell_by_cell T. cbn. rewrite Hcell. reflexivity.
    + intros s Hsalt.
      rewrite lookup_insert_ne, lookup_insert_ne, lookup_insert_eq by done.
      cbn [fmap option_fmap option_map mbind option_bind].
      unfold da_mul, da_div. cell_by_cell T. cbn. rewrite Hsalt. cbn.
      rewrite Hcell. reflexivity.
    + intros a d Halk Hdic. split.
      * rewrite lookup_insert_ne, lookup_insert_eq by done.
        cbn [fmap option_fmap option_map mbind option_bind].
        unfold buffer_factor_ALK, da_mul, da_div, da_sub, da_neg, da_pow.
        cell_by_cell T. cbn. rewrite Halk, Hdic. cbn. rewrite Hcell. reflexivity.
      * rewrite lookup_insert_eq.
        cbn [fmap option_fmap option_map mbind option_bind].
        unfold buffer_factor_DIC, da_mul, da_div, da_sub, da_neg, da_pow.
        cell_by_cell T. cbn. rewrite Halk, Hdic. cbn. rewrite Hcell. reflexivity.
Qed.

Lemma spco2_sensitivity_formulas_witness :
  ∃ sens,
    spco2_sensitivity sample_ds = ([Work Sensitivities], inr sens)
    ∧ dom sens = {[ "tos"; "sos"; "talkos"; "dissicos" ]}
    ∧ ds_at sens "dissicos" 1 1 = Some (cell_sensitivity_dissicos 2330 2030 390).
Proof.
  destruct (spco2_sensitivity_formulas sample_ds [mkTime 2000 1 0; mkTime 2001 1 0]
              (sample_field 360 370 380 390) (sample_field 10 11 12 13)
              (sample_field 35 34 33 32) (sample_field 2300 2310 2320 2330)
              (sample_field 2000 2010 2020 2030)
              eq_refl eq_refl eq_refl eq_refl eq_refl
              eq_refl eq_refl eq_refl eq_refl)
    as (sens & Hrun & Hdom & Hcells).
  exists sens. split; [exact Hrun|]. split; [exact Hdom|].
  destruct (Hcells 1%nat 1%nat 390%float eq_refl) as (_ & _ & Hc).
  exact (proj2 (Hc 2330%float 2030%float eq_refl eq_refl)).
Defined.

(** C9, as stated, fails in the last digit: the code multiplies the
    buffer factor by [1/DIC], which rounds twice where the quotient
    [factor / DIC] rounds once.  At ALK = 2330, DIC = 2030, pCO2 = 390 the
    DIC sensitivity is 2.2017341040462424, the quotient form
    2.2017341040462428. *)
Lemma spco2_sensitivity_not_one_quotient :
  ¬ (∀ (ds sens : Dataset) (i j : nat) (a d p : float),
       spco2_sensitivity ds = ([Work Sensitivities], inr sens) →
       ds_at ds "talkos" i j = Some a → ds_at ds "dissicos" i j = Some d →
       ds_at ds "spco2" i j = Some p →
       ds_at sens "talkos" i j = Some (quotient_sensitivity_talkos a d p)
       ∧ ds_at sens "dissicos" i j = Some (quotient_sensitivity_dissicos a d p)).
Proof.
  intros H.
  destruct (H sample_ds _ 1%nat 1%nat 2330%float 2030%float 390%float
              (spco2_sensitivity_present sample_ds _ _ _ _ _
                 eq_refl eq_refl eq_refl eq_refl eq_refl)
              eq_refl eq_refl eq_refl) as [_ Hd].
  apply (f_equal (λ o : option float,
                    match o with
                    | Some x => PrimFloat.eqb x 2.2017341040462428
                    | None => false
                    end)) in Hd.
  vm_compute in Hd. discriminate Hd.
Qed.

(** ** The decomposition drivers *)

Definition anomaly_events (detrend deseasonalize : bool) : list event :=
  (if detrend then [Work Detrending] else [detrend_warning; Work MeanRemoval])
  ++ (if deseasonalize then [Work Climatology] else [deseasonalize_warning]).

Lemma filter_nil_iff {A : Type} (f : A → bool) (l : list A) :
  List.filter f l = [] ↔ ∀ x, x ∈ l → f x = false.
Proof.
  induction l as [|a l IH]; cbn [List.filter].
  - split; [intros _ x Hx; inversion Hx | reflexivity].
  - destruct (f a) eqn:Ha.
    + split; [discriminate|]. intros H. rewrite (H a) in Ha by constructor. discriminate.
    + rewrite IH. split.
      * intros H x Hx. apply elem_of_cons in Hx as [->|Hx]; auto.
      * intros H x Hx. apply H. by constructor.
Qed.

Lemma index_years_elem (index : Index) (y : Z) :
  y ∈ index_years index ↔ ∃ e, e ∈ index ∧ year (fst e) = y.
Proof.
  unfold index_years. rewrite merge_sort_Permutation, elem_of_remove_dups.
  rewrite list_elem_of_fmap. split; intros (e & H1 & H2); exists e; split; auto.
Qed.



Section Decomposition_facts.
Context {reduction : Reduction}.
Variable rm_poly : Dataset → option Z → Dataset.
Variable linear_regression : Index → DataArray → Regression_result.

Lemma ds_has_time_lookup (ds : Dataset) (k : string) (rows : list (Time * list float)) :
  ds !! k = Some (Timed rows) → ds_has_time ds = true.
Proof.
  intros Hk. unfold ds_has_time. apply bool_decide_eq_true.
  apply map_Exists_lookup. exists k, (Timed rows). split; [exact Hk | reflexivity].
Qed.

Lemma ds_mean_time_timed (ds : Dataset) (k : string) (rows : list (Time * list float)) :
  ds !! k = Some (Timed rows) → ds_mean_time ds = ([], inr (ds_mean_values ds)).
Proof. intros Hk. unfold ds_mean_time. rewrite (ds_has_time_lookup ds k rows Hk). reflexivity. Qed.

(** The anomaly fields of the index driver when no error is raised. *)
Definition index_anomalies (ds : Dataset) (detrend : bool) (order : option Z)
    (deseasonalize : bool) : Dataset :=
  let a := if detrend then rm_poly ds order else ds_sub ds (nanmean ds) in
  if deseasonalize then ds_remove_climatology a else a.


Lemma bind_pure {A B : Type} (x : A) (f : A → M B) :
  (([], inr x) : M A) ≫= f = f x.
Proof. unfold mbind, M_bind. destruct (f x) as [l r]. reflexivity. Qed.

Lemma window_step_skip (anomaly sens : Dataset) (index : Index) (n y_end : Z)
    (res : list Dataset) (y : Z) :
  (y + n <=? y_end)%Z = false →
  window_step linear_regression anomaly sens index n y_end res y = ([], inr res).
Proof. intros Hy. unfold window_step. cbv zeta. rewrite Hy. reflexivity. Qed.


(** A loop none of whose start years passes the guard collects nothing,
    whatever the time axes are. *)
Lemma window_loop_empty (anomaly sens : Dataset) (index : Index) (n y_end : Z)
    (years : list Z) (res : list Dataset) :
  List.filter (λ y1, (y1 + n <=? y_end)%Z) years = [] →
  for_each (window_step linear_regression anomaly sens index n y_end) years res
  = ([], inr res).
Proof.
  revert res. induction years as [|y years IH]; intros res Hf; [reflexivity|].
  cbn [List.filter] in Hf. destruct (y + n <=? y_end)%Z eqn:Hy; [discriminate Hf|].
  cbn [for_each]. rewrite (window_step_skip _ _ _ _ _ _ _ Hy), bind_pure.
  apply IH, Hf.
Qed.


(** The regression stage of the index driver (lines 256-271). *)
Definition regression_stage (anomaly sens : Dataset) (index : Index)
    (sliding_window : option Z) : M Dataset :=
  match sliding_window with
  | None =>
      perform Regression ;;
      mret (ds_mul (regression_against_index linear_regression anomaly index)
              (nanmean sens))
  | Some n =>
      years ← groupby_years index;
      y_end ← index_last_year index;
      perform Regression ;;
      res ← for_each (window_step linear_regression anomaly sens index n y_end)
              years [];
      xr_concat_mean res
  end.

Definition finish (plot : bool) (m : M Dataset) : M (option Dataset) :=
  (log m ++ match outcome m with
            | inr _ => if plot then [Plotted] else []
            | inl _ => []
            end,
   match outcome m with
   | inl e => inl e
   | inr t => inr (if plot then None else Some t)
   end).

Lemma spco2_decomposition_index_run (ds : Dataset) (index : Index) (detrend : bool)
    (order : option Z) (deseasonalize plot : bool) (sliding_window : option Z)
    (sens : Dataset) :
  spco2_sensitivity ds = ([Work Sensitivities], inr sens) →
  detrend && negb (truthy order) = false →
  spco2_decomposition_index rm_poly linear_regression ds index detrend order
    deseasonalize plot sliding_window
  = let m := finish plot
               (regression_stage (index_anomalies ds detrend order deseasonalize)
                  sens index sliding_window) in
    (Work Sensitivities :: anomaly_events detrend deseasonalize ++ log m, outcome m).
Proof.
  intros Hsens Hord.
  change (spco2_decomposition_index rm_poly linear_regression ds index detrend order
            deseasonalize plot sliding_window)
    with (pco2_sensitivity ← spco2_sensitivity ds;
          ds_terms_anomaly ←
            (if detrend && negb (truthy order) then raise (KeyError order_message_index)
             else if detrend then perform Detrending ;; mret (rm_poly ds order)
             else warn "Your data are not being detrended." ;;
                  perform MeanRemoval ;; mret (ds_sub ds (nanmean ds)));
          ds_terms_anomaly ←
            (if deseasonalize then
               perform Climatology ;; mret (ds_remove_climatology ds_terms_anomaly)
             else warn "Your data are not being deseasonalized." ;; mret ds_terms_anomaly);
          terms_in_pCO2_units ←
            regression_stage ds_terms_anomaly pco2_sensitivity index sliding_window;
          if plot then plot_figure ;; mret None else mret (Some terms_in_pCO2_units)).
  rewrite Hsens, Hord. unfold index_anomalies, finish, log, outcome.
  destruct detrend, deseasonalize; cbn -[regression_stage ds_sub nanmean ds_remove_climatology];
    destruct (regression_stage _ _ _ _) as [l [e|t]]; destruct plot; cbn;
    rewrite ?app_nil_r; reflexivity.
Qed.

Lemma spco2_decomposition_run (ds : Dataset) (detrend : bool) (order : option Z)
    (deseasonalize : bool) (sens : Dataset) (rows : list (Time * list float)) :
  spco2_sensitivity ds = ([Work Sensitivities], inr sens) →
  detrend && negb (truthy order) = false →
  ds !! "spco2" = Some (Timed rows) →
  ds_has_time sens = true →
  spco2_decomposition rm_poly ds detrend order deseasonalize
  = (Work Sensitivities :: anomaly_events detrend deseasonalize ++ [Work Product],
     inr (ds_mul (ds_mean_values sens)
            (let a := if detrend then rm_poly ds order
                      else ds_sub ds (ds_mean_values ds) in
             if deseasonalize then ds_remove_climatology a else a))).
Proof.
  intros Hsens Hord Hp Hst. unfold spco2_decomposition, anomaly_events.
  pose proof (ds_has_time_lookup ds _ _ Hp) as Hdt.
  rewrite Hsens, Hord.
  unfold ds_mean_time. rewrite Hdt.
  destruct detrend, deseasonalize;
    cbn -[ds_has_time ds_mean_values ds_sub ds_mul ds_remove_climatology];
    rewrite Hst; reflexivity.
Qed.

End Decomposition_facts.

(** ** Further facts about the sensitivities *)

Lemma spco2_sensitivity_dom (ds : Dataset) (l : list event) (sens : Dataset) :
  spco2_sensitivity ds = (l, inr sens) →
  dom sens = {[ "tos"; "sos"; "talkos"; "dissicos" ]}
  ∧ forallb (has_var ds) requiredVars = true.
Proof.
  intros Hrun.
  destruct (forallb (has_var ds) requiredVars) eqn:Hv.
  - split; [|reflexivity].
    pose proof Hv as Hall. rewrite all_present_true in Hall.
    destruct (Hall "spco2") as [p Hp]; [repeat constructor|].
    destruct (Hall "tos") as [t Ht]; [repeat constructor|].
    destruct (Hall "sos") as [s Hs]; [repeat constructor|].
    destruct (Hall "talkos") as [a Ha]; [repeat constructor|].
    destruct (Hall "dissicos") as [d Hd]; [repeat constructor|].
    rewrite (spco2_sensitivity_present ds p t s a d Hp Ht Hs Ha Hd) in Hrun.
    injection Hrun as _ <-.
    unfold ds_mul_da, sensitivity_fields.
    rewrite dom_fmap_L, !dom_insert_L, dom_empty_L. set_solver.
  - rewrite (spco2_sensitivity_missing ds Hv) in Hrun. discriminate Hrun.
Qed.

(** X7: the sensitivities read the pCO2, salinity, alkalinity and DIC fields
    only: the values of the temperature field and any further variable of
    the dataset do not change the outcome (the temperature must merely be
    present). *)
Theorem spco2_sensitivity_reads_four_fields (ds ds' : Dataset) :
  ds !! "spco2" = ds' !! "spco2" →
  ds !! "sos" = ds' !! "sos" →
  ds !! "talkos" = ds' !! "talkos" →
  ds !! "dissicos" = ds' !! "dissicos" →
  (is_Some (ds !! "tos") ↔ is_Some (ds' !! "tos")) →
  spco2_sensitivity ds = spco2_sensitivity ds'.
Proof.
  intros Hp Hs Ha Hd Ht.
  assert (has_var ds "tos" = has_var ds' "tos") as Hvt.
  { unfold has_var. apply bool_decide_ext, Ht. }
  assert (has_var ds "spco2" = has_var ds' "spco2") as Hvp
    by (unfold has_var; rewrite Hp; reflexivity).
  assert (has_var ds "sos" = has_var ds' "sos") as Hvs
    by (unfold has_var; rewrite Hs; reflexivity).
  assert (has_var ds "talkos" = has_var ds' "talkos") as Hva
    by (unfold has_var; rewrite Ha; reflexivity).
  assert (has_var ds "dissicos" = has_var ds' "dissicos") as Hvd
    by (unfold has_var; rewrite Hd; reflexivity).
  unfold spco2_sensitivity, _check_variables, missingVars, getitem.
  cbn [forallb List.filter requiredVars].
  rewrite Hvp, Hvt, Hvs, Hva, Hvd, Hp, Hs, Ha, Hd. reflexivity.
Qed.

Lemma spco2_sensitivity_timed (ds : Dataset) (l : list event) (sens : Dataset)
    (rows : list (Time * list float)) :
  spco2_sensitivity ds = (l, inr sens) →
  ds !! "spco2" = Some (Timed rows) →
  ∃ rows', sens !! "tos" = Some (Timed rows').
Proof.
  intros Hrun Hp.
  destruct (spco2_sensitivity_dom ds l sens Hrun) as [_ Hv].
  rewrite all_present_true in Hv.
  destruct (Hv "tos") as [t Ht]; [repeat constructor|].
  destruct (Hv "sos") as [s Hs]; [repeat constructor|].
  destruct (Hv "talkos") as [a Ha]; [repeat constructor|].
  destruct (Hv "dissicos") as [d Hd]; [repeat constructor|].
  rewrite (spco2_sensitivity_present ds _ t s a d Hp Ht Hs Ha Hd) in Hrun.
  injection Hrun as _ <-. eexists. reflexivity.
Qed.

Section Driver_theorems.
Context {reduction : Reduction}.
Variable rm_poly : Dataset → option Z → Dataset.
Variable linear_regression : Index → DataArray → Regression_result.

Lemma spco2_decomposition_missing (ds : Dataset) (detrend : bool)
    (order : option Z) (deseasonalize : bool) :
  forallb (has_var ds) requiredVars = false →
  spco2_decomposition rm_poly ds detrend order deseasonalize
  = ([], inl (ValueError (missing_message (missingVars ds)))).
Proof.
  intros H. unfold spco2_decomposition.
  rewrite (spco2_sensitivity_missing ds H). reflexivity.
Qed.

Lemma spco2_decomposition_index_missing (ds : Dataset) (index : Index) (detrend : bool)
    (order : option Z) (deseasonalize plot : bool) (sliding_window : option Z) :
  forallb (has_var ds) requiredVars = false →
  spco2_decomposition_index rm_poly linear_regression ds index detrend order
    deseasonalize plot sliding_window
  = ([], inl (ValueError (missing_message (missingVars ds)))).
Proof.
  intros H. unfold spco2_decomposition_index.
  rewrite (spco2_sensitivity_missing ds H). reflexivity.
Qed.

(** C2, as amended: with [detrend=True] and a falsy [order],
    [spco2_decomposition] always raises.  When the dataset has the five
    variables the sensitivities are computed first and the KeyError about
    the order follows, before any anomaly is computed; when a variable is
    missing the ValueError of the variable check is raised instead, with
    no computation at all. *)
Theorem spco2_decomposition_order_required
    (ds : Dataset) (order : option Z) (deseasonalize : bool) :
  truthy order = false →
  (forallb (has_var ds) requiredVars = true →
     spco2_decomposition rm_poly ds true order deseasonalize
     = ([Work Sensitivities], inl (KeyError order_message)))
  ∧ (forallb (has_var ds) requiredVars = false →
       spco2_decomposition rm_poly ds true order deseasonalize
       = ([], inl (ValueError (missing_message (missingVars ds))))).
Proof.
  intros Hord. split; intros Hv.
  - destruct (spco2_sensitivity_valid ds Hv) as [sens Hsens].
    unfold spco2_decomposition. rewrite Hsens, Hord. reflexivity.
  - apply spco2_decomposition_missing, Hv.
Qed.

(** C3, as amended: a dataset that lacks one of the five required
    variables makes both drivers raise the ValueError of the variable
    check, with an empty log: nothing is computed and no warning is
    issued.  (Further variables are not refused.) *)
Theorem drivers_require_variables
    (ds : Dataset) (index : Index) (detrend : bool) (order : option Z)
    (deseasonalize plot : bool) (sliding_window : option Z) :
  (∃ v, v ∈ requiredVars ∧ ds !! v = None) →
  spco2_decomposition rm_poly ds detrend order deseasonalize
  = ([], inl (ValueError (missing_message (missingVars ds))))
  ∧ spco2_decomposition_index rm_poly linear_regression ds index detrend order
      deseasonalize plot sliding_window
    = ([], inl (ValueError (missing_message (missingVars ds)))).
Proof.
  intros H. apply all_present_false in H. split.
  - apply spco2_decomposition_missing, H.
  - apply spco2_decomposition_index_missing, H.
Qed.

Lemma sensitivity_prepared (ds : Dataset) (rows : list (Time * list float)) :
  forallb (has_var ds) requiredVars = true →
  ds !! "spco2" = Some (Timed rows) →
  ∃ sens, spco2_sensitivity ds = ([Work Sensitivities], inr sens)
          ∧ ds_has_time sens = true
          ∧ sens !! "spco2" = None.
Proof.
  intros Hv Hp.
  destruct (spco2_sensitivity_valid ds Hv) as [sens Hsens].
  exists sens. split; [exact Hsens|]. split.
  - destruct (spco2_sensitivity_timed ds _ sens rows Hsens Hp) as [rows' Ht].
    apply (ds_has_time_lookup sens "tos" rows' Ht).
  - destruct (spco2_sensitivity_dom ds _ sens Hsens) as [Hdom _].
    apply not_elem_of_dom. rewrite Hdom.
    rewrite !elem_of_union, !elem_of_singleton. intros Hin.
    repeat (destruct Hin as [Hin|Hin]; try discriminate).
Qed.


(** *** The sliding window *)

Lemma regression_stage_windowed (anomaly sens : Dataset) (index : Index) (n : Z)
    (e : Time * float) (res : list Dataset) :
  last index = Some e →
  for_each (window_step linear_regression anomaly sens index n (year (fst e)))
    (index_years index) [] = ([], inr res) →
  regression_stage linear_regression anomaly sens index (Some n)
  = ([Work Regression], outcome (xr_concat_mean res)).
Proof.
  intros Hlast Hloop. unfold regression_stage, index_last_year.
  rewrite Hlast. destruct index as [|i0 index']; [discriminate Hlast|].
  cbn [groupby_years]. unfold mbind, mret, M_bind, M_ret, perform.
  rewrite Hloop.
  destruct (xr_concat_mean res) as [l r] eqn:Hc.
  assert (l = []) as ->.
  { unfold xr_concat_mean in Hc. destruct res as [|d0 rest]; [injection Hc as <- _; reflexivity|].
    destruct (forallb _ rest); injection Hc as <- _; reflexivity. }
  destruct r; reflexivity.
Qed.





Lemma no_window_starts (index : Index) (n y_end : Z) :
  (∀ y1, y1 ∈ index_years index → ¬ (y1 + n ≤ y_end)%Z) →
  List.filter (λ y1, (y1 + n <=? y_end)%Z) (index_years index) = [].
Proof.
  intros Hnone. apply filter_nil_iff. intros y Hy. apply Z.leb_gt.
  specialize (Hnone y Hy). lia.
Qed.

Lemma no_window_raises
    (ds : Dataset) (index : Index) (detrend : bool) (order : option Z)
    (deseasonalize plot : bool) (n : Z) (e : Time * float) :
  forallb (has_var ds) requiredVars = true →
  detrend && negb (truthy order) = false →
  last index = Some e →
  (∀ y1, y1 ∈ index_years index → ¬ (y1 + n ≤ year (fst e))%Z) →
  outcome (spco2_decomposition_index rm_poly linear_regression ds index
             detrend order deseasonalize plot (Some n))
  = inl (ValueError "must supply at least one object to concatenate").
Proof.
  intros Hv Hord Hlast Hnone.
  destruct (spco2_sensitivity_valid ds Hv) as [sens Hsens].
  rewrite (spco2_decomposition_index_run _ _ ds _ _ _ _ _ _ sens Hsens Hord).
  rewrite (regression_stage_windowed _ sens index n e [] Hlast
             (window_loop_empty linear_regression _ sens index n (year (fst e))
                (index_years index) [] (no_window_starts index n _ Hnone))).
  reflexivity.
Qed.


(** C6 on the code: a window as long as the series, counted in calendar
    years from the first to the last year, leaves no start year whose
    window ends by the last year; the windowed run raises while the run
    with [sliding_window = None] returns a dataset. *)
Theorem full_length_window_raises
    (ds : Dataset) (e0 : Time * float) (rest : Index) (e : Time * float)
    (detrend : bool) (order : option Z) (deseasonalize : bool) :
  forallb (has_var ds) requiredVars = true →
  detrend && negb (truthy order) = false →
  last (e0 :: rest) = Some e →
  (∀ e', e' ∈ e0 :: rest → (year (fst e0) ≤ year (fst e'))%Z) →
  let full_length := (year (fst e) - year (fst e0) + 1)%Z in
  outcome (spco2_decomposition_index rm_poly linear_regression ds (e0 :: rest)
             detrend order deseasonalize false (Some full_length))
  = inl (ValueError "must supply at least one object to concatenate")
  ∧ ∃ r, outcome (spco2_decomposition_index rm_poly linear_regression ds (e0 :: rest)
                    detrend order deseasonalize false None)
         = inr (Some r).
Proof.
  intros Hv Hord Hlast Hasc full_length. split.
  - apply (no_window_raises ds (e0 :: rest) detrend order
             deseasonalize false full_length e Hv Hord Hlast).
    intros y1 Hy1. apply index_years_elem in Hy1 as (e' & He' & <-).
    specialize (Hasc e' He'). unfold full_length. lia.
  - destruct (spco2_sensitivity_valid ds Hv) as [sens Hsens].
    rewrite (spco2_decomposition_index_run _ _ ds _ _ _ _ _ _ sens Hsens Hord).
    eexists. reflexivity.
Qed.

(** *** What the drivers log *)

Lemma bind_log_nil {A B : Type} (m : M A) (f : A → M B) :
  log m = [] → (∀ x, log (f x) = []) → log (m ≫= f) = [].
Proof.
  intros Hm Hf. destruct m as [l [e|x]]; cbn in Hm; subst l; [reflexivity|].
  unfold mbind, M_bind. specialize (Hf x). destruct (f x) as [l' r].
  exact Hf.
Qed.

Lemma ds_sel_years_log (y1 y2 : Z) (ds : Dataset) : log (ds_sel_years y1 y2 ds) = [].
Proof. unfold ds_sel_years. destruct (bool_decide _); reflexivity. Qed.

Lemma index_sel_years_log (y1 y2 : Z) (index : Index) :
  log (index_sel_years y1 y2 index) = [].
Proof. unfold index_sel_years. destruct (ascending _); reflexivity. Qed.

Lemma window_step_log (anomaly sens : Dataset) (index : Index) (n y_end : Z)
    (res : list Dataset) (y : Z) :
  log (window_step linear_regression anomaly sens index n y_end res y) = [].
Proof.
  unfold window_step. cbv zeta. destruct (y + n <=? y_end)%Z; [|reflexivity].
  apply bind_log_nil; [apply ds_sel_years_log|]. intros d.
  apply bind_log_nil; [apply index_sel_years_log|]. intros i.
  apply bind_log_nil; [apply ds_sel_years_log|]. intros s. reflexivity.
Qed.

Lemma for_each_log {A B : Type} (body : B → A → M B) (l : list A) (acc : B) :
  (∀ acc x, log (body acc x) = []) → log (for_each body l acc) = [].
Proof.
  intros Hb. revert acc. induction l as [|x l IH]; intros acc; [reflexivity|].
  cbn [for_each]. apply bind_log_nil; [apply Hb | exact IH].
Qed.

Lemma xr_concat_mean_log (res : list Dataset) : log (xr_concat_mean res) = [].
Proof.
  unfold xr_concat_mean. destruct res as [|d0 rest]; [reflexivity|].
  destruct (forallb _ rest); reflexivity.
Qed.

(** The regression stage logs the regression and nothing else, or
    nothing at all when the grouping of an empty index raises. *)
Lemma regression_stage_log (anomaly sens : Dataset) (index : Index)
    (sliding_window : option Z) :
  log (regression_stage linear_regression anomaly sens index sliding_window) = [Work Regression]
  ∨ log (regression_stage linear_regression anomaly sens index sliding_window) = [].
Proof.
  unfold regression_stage. destruct sliding_window as [n|]; [|left; reflexivity].
  destruct index as [|i0 index']; [right; reflexivity|].
  unfold index_last_year.
  destruct (last (i0 :: index')) as [e|] eqn:Hlast; [|right; reflexivity].
  left. cbn [groupby_years]. unfold mbind, mret, M_bind, M_ret, perform.
  pose proof (for_each_log
                (window_step linear_regression anomaly sens (i0 :: index') n (year (fst e)))
                (index_years (i0 :: index')) []
                (window_step_log anomaly sens (i0 :: index') n (year (fst e)))) as Hl.
  destruct (for_each _ _ _) as [l [err|res]]; cbn in Hl; subst l; [reflexivity|].
  pose proof (xr_concat_mean_log res) as Hc.
  destruct (xr_concat_mean res) as [l r]. cbn in Hc. subst l. reflexivity.
Qed.





(** X9: a run that gets past the checks, on a dataset whose pCO2 has a
    time axis, warns exactly about the steps it skips: one warning when it
    does not detrend, one when it does not deseasonalize, in this order,
    and none otherwise; this holds for both drivers, whatever the window
    and the plot flag, and also when the windowed regression raises
    afterwards. *)
Theorem drivers_warn_about_skipped_steps
    (ds : Dataset) (index : Index) (detrend : bool) (order : option Z)
    (deseasonalize plot : bool) (sliding_window : option Z)
    (rows : list (Time * list float)) :
  forallb (has_var ds) requiredVars = true →
  ds !! "spco2" = Some (Timed rows) →
  detrend && negb (truthy order) = false →
  let expected :=
    (if detrend then [] else [detrend_warning])
    ++ (if deseasonalize then [] else [deseasonalize_warning]) in
  List.filter is_warning (log (spco2_decomposition rm_poly ds detrend order deseasonalize))
  = expected
  ∧ List.filter is_warning
      (log (spco2_decomposition_index rm_poly linear_regression ds index detrend order
              deseasonalize plot sliding_window))
    = expected.
Proof.
  intros Hv Hp Hord expected.
  destruct (sensitivity_prepared ds rows Hv Hp) as (sens & Hsens & Hst & _).
  split.
  - rewrite (spco2_decomposition_run rm_poly ds detrend order deseasonalize sens rows
               Hsens Hord Hp Hst).
    destruct detrend, deseasonalize; reflexivity.
  - rewrite (spco2_decomposition_index_run rm_poly linear_regression ds index detrend order
               deseasonalize plot sliding_window sens Hsens Hord).
    pose proof (regression_stage_log
                  (index_anomalies rm_poly ds detrend order deseasonalize) sens index
                  sliding_window) as Hl.
    destruct (regression_stage _ _ _ _ _) as [l [e|r]]; unfold log, finish, outcome in *;
      cbn [fst snd] in *; destruct Hl as [-> | ->];
      destruct detrend, deseasonalize, plot; reflexivity.
Qed.

Lemma spco2_decomposition_index_bad_order (ds : Dataset) (index : Index)
    (order : option Z) (deseasonalize plot : bool) (sliding_window : option Z) :
  forallb (has_var ds) requiredVars = true →
  truthy order = false →
  spco2_decomposition_index rm_poly linear_regression ds index true order
    deseasonalize plot sliding_window
  = ([Work Sensitivities], inl (KeyError order_message_index)).
Proof.
  intros Hv Hord.
  destruct (spco2_sensitivity_valid ds Hv) as [sens Hsens].
  unfold spco2_decomposition_index. rewrite Hsens, Hord. reflexivity.
Qed.

(** X10: the index driver checks the order like the direct driver: with
    [detrend=True] and a falsy [order] it raises its KeyError right after
    the sensitivities, whatever the index, the window and the plot flag;
    no regression is run and nothing is plotted. *)
Theorem spco2_decomposition_index_order_required
    (ds : Dataset) (index : Index) (order : option Z)
    (deseasonalize plot : bool) (sliding_window : option Z) :
  forallb (has_var ds) requiredVars = true →
  truthy order = false →
  spco2_decomposition_index rm_poly linear_regression ds index true order
    deseasonalize plot sliding_window
  = ([Work Sensitivities], inl (KeyError order_message_index)).
Proof.
  intros Hv Hord.
  destruct (spco2_sensitivity_valid ds Hv) as [sens Hsens].
  unfold spco2_decomposition_index. rewrite Hsens, Hord. reflexivity.
Qed.

(** X11: with [plot=True] the index driver never returns a dataset: it
    raises or draws and returns [None]; with [plot=False] it never returns
    [None] and never draws. *)
Theorem plot_returns_nothing
    (ds : Dataset) (index : Index) (detrend : bool) (order : option Z)
    (deseasonalize : bool) (sliding_window : option Z) :
  (∀ r, outcome (spco2_decomposition_index rm_poly linear_regression ds index detrend
                   order deseasonalize true sliding_window) ≠ inr (Some r))
  ∧ outcome (spco2_decomposition_index rm_poly linear_regression ds index detrend
               order deseasonalize false sliding_window) ≠ inr None
  ∧ Plotted ∉ log (spco2_decomposition_index rm_poly linear_regression ds index detrend
                     order deseasonalize false sliding_window).
Proof.
  destruct (forallb (has_var ds) requiredVars) eqn:Hv.
  - destruct (spco2_sensitivity_valid ds Hv) as [sens Hsens].
    destruct (detrend && negb (truthy order)) eqn:Hord.
    + apply andb_prop in Hord as [-> Hord]. apply negb_true_iff in Hord.
      rewrite !(spco2_decomposition_index_bad_order ds index order deseasonalize _
                  sliding_window Hv Hord).
      split; [intros r; discriminate|]. split; [discriminate|].
      cbn. intros H. apply elem_of_cons in H as [H|H]; [discriminate H | inversion H].
    + rewrite !(spco2_decomposition_index_run rm_poly linear_regression ds index detrend
                  order deseasonalize _ sliding_window sens Hsens Hord).
      pose proof (regression_stage_log
                    (index_anomalies rm_poly ds detrend order deseasonalize) sens index
                    sliding_window) as Hl.
      destruct (regression_stage _ _ _ _ _) as [l [e|r]];
        unfold log, finish, outcome in *; cbn [fst snd] in *.
      * split; [intros r; discriminate|]. split; [discriminate|].
        intros H. rewrite !elem_of_cons, !elem_of_app in H.
        destruct H as [H|[H|[H|H]]]; [discriminate H| | |inversion H].
        -- destruct detrend, deseasonalize; cbn in H;
             repeat (apply elem_of_cons in H as [H|H]; [discriminate H|]); inversion H.
        -- destruct Hl as [-> | ->];
             repeat (apply elem_of_cons in H as [H|H]; [discriminate H|]); inversion H.
      * split; [intros r'; discriminate|]. split; [discriminate|].
        intros H. rewrite !elem_of_cons, !elem_of_app in H.
        destruct H as [H|[H|[H|H]]]; [discriminate H| | |inversion H].
        -- destruct detrend, deseasonalize; cbn in H;
             repeat (apply elem_of_cons in H as [H|H]; [discriminate H|]); inversion H.
        -- destruct Hl as [-> | ->];
             repeat (apply elem_of_cons in H as [H|H]; [discriminate H|]); inversion H.
  - rewrite !(spco2_decomposition_index_missing ds index detrend
                order deseasonalize _ sliding_window Hv).
    split; [intros r; discriminate|]. split; [discriminate|].
    cbn. intros H. inversion H.
Qed.

End Driver_theorems.

(** ** temp_decomp_takahashi *)

Section Takahashi_facts.
Context {reduction : Reduction}.
Variable np_exp : float → float.

Local Open Scope float_scope.

(** X5: both fields are looked up by name and averaged over time, the
    temperature first.  A dataset without the temperature variable raises
    the KeyError of that variable even when the pCO2 variable is missing
    too; a temperature without time axis is refused before the pCO2 is
    looked up; with a temperature on a time axis a missing pCO2 variable
    raises the KeyError of that variable and a pCO2 without time axis is
    refused; with both on a time axis the function returns its two
    fields. *)
Theorem temp_decomp_takahashi_lookups (ds : Dataset) (temperature pco2 : string) :
  (ds !! temperature = None →
     temp_decomp_takahashi np_exp ds temperature pco2
     = ([], inl (VariableKeyError temperature)))
  ∧ (∀ t, ds !! temperature = Some t → is_timed t = false →
       temp_decomp_takahashi np_exp ds temperature pco2
       = ([], inl (DimensionError "time")))
  ∧ (∀ t, ds !! temperature = Some t → is_timed t = true → ds !! pco2 = None →
       temp_decomp_takahashi np_exp ds temperature pco2
       = ([], inl (VariableKeyError pco2)))
  ∧ (∀ t p, ds !! temperature = Some t → is_timed t = true →
       ds !! pco2 = Some p → is_timed p = false →
       temp_decomp_takahashi np_exp ds temperature pco2
       = ([], inl (DimensionError "time")))
  ∧ (∀ t p, ds !! temperature = Some t → is_timed t = true →
       ds !! pco2 = Some p → is_timed p = true →
       ∃ fields, temp_decomp_takahashi np_exp ds temperature pco2 = ([], inr fields)).
Proof.
  unfold temp_decomp_takahashi, getitem. repeat split.
  - intros ->. reflexivity.
  - intros t -> Ht. destruct t; [reflexivity | reflexivity | discriminate Ht].
  - intros t -> Ht ->. destruct t; [discriminate Ht | discriminate Ht | reflexivity].
  - intros t p -> Ht -> Hp. destruct t; [discriminate Ht | discriminate Ht |].
    destruct p; [reflexivity | reflexivity | discriminate Hp].
  - intros t p -> Ht -> Hp. destruct t; [discriminate Ht | discriminate Ht |].
    destruct p; [discriminate Hp | discriminate Hp |]. eexists. reflexivity.
Qed.

(** X6: for a temperature and a pCO2 field with the same time labels,
    every cell of the thermal component is the time mean of the cell's
    pCO2 times [exp(dT * 0.0432)] and every cell of the non-thermal
    component is the cell's pCO2 times [exp(dT * -0.0432)], where [dT] is
    the cell's temperature minus its time mean. *)
Theorem temp_decomp_takahashi_cells
    (ds : Dataset) (temperature pco2 : string)
    (trows prows : list (Time * list float)) :
  fst <$> prows = fst <$> trows →
  ds !! temperature = Some (Timed trows) →
  ds !! pco2 = Some (Timed prows) →
  ∃ thermal non_thermal,
    temp_decomp_takahashi np_exp ds temperature pco2 = ([], inr (thermal, non_thermal))
    ∧ ∀ (i j : nat) (t p t_mean p_mean : float),
        da_at (Timed trows) i j = Some t →
        da_at (Timed prows) i j = Some p →
        time_mean (snd <$> trows) !! j = Some t_mean →
        time_mean (snd <$> prows) !! j = Some p_mean →
        da_at thermal i j = Some (p_mean * np_exp ((t - t_mean) * 0.0432))
        ∧ da_at non_thermal i j = Some (p * np_exp ((t - t_mean) * - 0.0432)).
Proof.
  intros Hlabels Ht Hp.
  unfold temp_decomp_takahashi, getitem. rewrite Ht, Hp.
  eexists _, _. split; [reflexivity|].
  intros i j t p t_mean p_mean Hti Hpi Htm Hpm.
  assert (on_axis (fst <$> trows) (Timed trows)) as At by reflexivity.
  assert (on_axis (fst <$> trows) (Timed prows)) as Ap by exact Hlabels.
  assert (on_axis (fst <$> trows) (da_mean_values (Timed trows))) as Atm by exact I.
  assert (on_axis (fst <$> trows) (da_mean_values (Timed prows))) as Apm by exact I.
  assert (∀ rows, da_at (da_mean_values (Timed rows)) i j = time_mean (snd <$> rows) !! j)
    as Hmean by reflexivity.
  unfold da_mul, da_sub.
  split.
  - cell_by_cell (fst <$> trows).
    rewrite !Hmean, Hpm, Hti, Htm. reflexivity.
  - cell_by_cell (fst <$> trows).
    rewrite !Hmean, Hpi, Hti, Htm. reflexivity.
Qed.

End Takahashi_facts.

(** ** The theorems at the sample inputs *)

#[local] Existing Instance sample_reduction.

Lemma sample_ds_valid : forallb (has_var sample_ds) requiredVars = true.
Proof. vm_compute. reflexivity. Qed.

Lemma sample_ds_extra_valid : forallb (has_var sample_ds_extra) requiredVars = true.
Proof. vm_compute. reflexivity. Qed.

Lemma sample_sens_run : spco2_sensitivity sample_ds = ([Work Sensitivities], inr sample_sens).
Proof. vm_compute. reflexivity. Qed.



Lemma spco2_sensitivity_reads_four_fields_witness :
  spco2_sensitivity sample_ds
  = spco2_sensitivity (<["tos" := Scalar 0]> sample_ds_extra).
Proof.
  apply (spco2_sensitivity_reads_four_fields sample_ds
           (<["tos" := Scalar 0]> sample_ds_extra));
    try reflexivity.
  split; intros _; eexists; reflexivity.
Defined.

Lemma spco2_decomposition_order_required_witness :
  spco2_decomposition sample_rm_poly sample_ds true None false
  = ([Work Sensitivities], inl (KeyError order_message)).
Proof.
  apply (proj1 (spco2_decomposition_order_required sample_rm_poly sample_ds None false
                  eq_refl)).
  exact sample_ds_valid.
Defined.

(** C2, as stated, fails: the sensitivities are computed before the order
    is checked, so the run that ends in the KeyError has done array work. *)
Lemma spco2_decomposition_computes_before_order_check :
  ¬ (∀ (rm_poly : Dataset → option Z → Dataset) (ds : Dataset) (order : option Z)
       (deseasonalize : bool),
       truthy order = false →
       fails_before_any_work (spco2_decomposition rm_poly ds true order deseasonalize)).
Proof.
  intros H.
  destruct (H sample_rm_poly sample_ds None false eq_refl) as [_ Hw].
  apply (Hw Sensitivities).
  unfold spco2_decomposition. rewrite sample_sens_run. constructor.
Qed.

Lemma drivers_require_variables_witness :
  spco2_decomposition sample_rm_poly (delete "tos" sample_ds) true (Some 1%Z) false
  = ([], inl (ValueError (missing_message (missingVars (delete "tos" sample_ds)))))
  ∧ spco2_decomposition_index sample_rm_poly sample_regression (delete "tos" sample_ds)
      sample_index true (Some 1%Z) false false (Some 10%Z)
    = ([], inl (ValueError (missing_message (missingVars (delete "tos" sample_ds))))).
Proof.
  apply (drivers_require_variables sample_rm_poly sample_regression
           (delete "tos" sample_ds) sample_index true (Some 1%Z) false false (Some 10%Z)).
  exists "tos". split; [repeat constructor | apply lookup_delete_eq].
Defined.

(** C3, as stated, fails: a dataset with a sixth variable does not have
    exactly the five required ones, and the run returns a dataset. *)
Lemma drivers_accept_further_variables :
  ¬ (∀ (rm_poly : Dataset → option Z → Dataset) (ds : Dataset) (detrend : bool)
       (order : option Z) (deseasonalize : bool),
       dom ds ≠ list_to_set requiredVars →
       fails_before_any_work (spco2_decomposition rm_poly ds detrend order deseasonalize)).
Proof.
  intros H.
  destruct (H sample_rm_poly sample_ds_extra false None false) as [[e He] _].
  - intros Heq.
    apply (f_equal (λ X : gset string, bool_decide ("chlos" ∈ X))) in Heq.
    vm_compute in Heq. discriminate Heq.
  - destruct (sensitivity_prepared sample_ds_extra _ sample_ds_extra_valid eq_refl)
      as (sens & Hsens & Hst & _).
    rewrite (spco2_decomposition_run sample_rm_poly sample_ds_extra false None false
               sens _ Hsens eq_refl eq_refl Hst) in He.
    discriminate He.
Qed.







Lemma sample_index_ascending (e' : Time * float) :
  e' ∈ sample_index → (2000 ≤ year (fst e'))%Z.
Proof.
  unfold sample_index. intros He.
  apply elem_of_cons in He as [-> | He]; [cbn; lia|].
  apply elem_of_cons in He as [-> | He]; [cbn; lia|].
  inversion He.
Qed.

Lemma full_length_window_raises_witness :
  outcome (spco2_decomposition_index sample_rm_poly sample_regression sample_ds
             sample_index false None false false (Some (2001 - 2000 + 1)%Z))
  = inl (ValueError "must supply at least one object to concatenate")
  ∧ ∃ r, outcome (spco2_decomposition_index sample_rm_poly sample_regression sample_ds
                    sample_index false None false false None)
         = inr (Some r).
Proof.
  apply (full_length_window_raises sample_rm_poly sample_regression sample_ds
           (mkTime 2000 1 0, 1%float) [(mkTime 2001 1 0, 2%float)]
           (mkTime 2001 1 0, 2%float)
           false None false sample_ds_valid eq_refl eq_refl sample_index_ascending).
Defined.


Lemma drivers_warn_about_skipped_steps_witness :
  List.filter is_warning
    (log (spco2_decomposition_index sample_rm_poly sample_regression sample_ds
            sample_index false None false false (Some 2%Z)))
  = [detrend_warning; deseasonalize_warning].
Proof.
  exact (proj2 (drivers_warn_about_skipped_steps sample_rm_poly sample_regression
                  sample_ds sample_index false None false false (Some 2%Z) _
                  sample_ds_valid eq_refl eq_refl)).
Defined.

Lemma spco2_decomposition_index_order_required_witness :
  spco2_decomposition_index sample_rm_poly sample_regression sample_ds sample_index
    true (Some 0%Z) true true (Some 10%Z)
  = ([Work Sensitivities], inl (KeyError order_message_index)).
Proof.
  exact (spco2_decomposition_index_order_required sample_rm_poly sample_regression
           sample_ds sample_index (Some 0%Z) true true (Some 10%Z)
           sample_ds_valid eq_refl).
Defined.

Lemma temp_decomp_takahashi_cells_witness :
  ∃ thermal non_thermal,
    temp_decomp_takahashi (λ x, x) sample_ds "tos" "spco2"
    = ([], inr (thermal, non_thermal))
    ∧ da_at thermal 0 0 = Some (370 * ((10 - 11) * 0.0432))%float
    ∧ da_at non_thermal 0 0 = Some (360 * ((10 - 11) * - 0.0432))%float.
Proof.
  destruct (temp_decomp_takahashi_cells (λ x, x) sample_ds "tos" "spco2"
              [(mkTime 2000 1 0, [10; 11]%float); (mkTime 2001 1 0, [12; 13]%float)]
              [(mkTime 2000 1 0, [360; 370]%float); (mkTime 2001 1 0, [380; 390]%float)]
              eq_refl eq_refl eq_refl)
    as (thermal & non_thermal & Hrun & Hcells).
  exists thermal, non_thermal. split; [exact Hrun|].
  exact (Hcells 0%nat 0%nat 10%float 360%float 11%float 370%float
           eq_refl eq_refl eq_refl eq_refl).
Defined.

Lemma temp_decomp_takahashi_lookups_witness :
  temp_decomp_takahashi (λ x, x) (<["tos" := Static [10%float]]> sample_ds) "tos" "spco2"
  = ([], inl (DimensionError "time")).
Proof.
  exact (proj1 (proj2 (temp_decomp_takahashi_lookups (λ x, x)
                         (<["tos" := Static [10%float]]> sample_ds) "tos" "spco2"))
           (Static [10%float]) eq_refl eq_refl).
Defined.
